(** * RBAC authentication layer: a shallow embedding of the decision code

    The development follows the JavaScript sources of the auth-system API:
    - [middleware/authorize.js]  (role / module decision function [authorize]),
    - [middleware/auth.js]       (the [authenticate] gate),
    - [controllers/authController.js] (token issue, refresh exchange, logout,
      password change),
    - [models/User.js], [models/Token.js], [config/constants.js],
    - [middleware/wfpAuth.js]    (the cycle guard [canManageCycle]).

    Express middleware either calls [next()] or sends a JSON reply with a
    status code; handlers always send a reply.  Mongo collections are lists
    of documents, a document being identified by its position. *)

From stdpp Require Import base decidable option list strings gmap.
From Stdlib Require Import ZArith Ascii String.

Open Scope string_scope.
Open Scope Z_scope.

(** ** JavaScript values that the decision code manipulates *)

Module Js.

(** Result of reading a property of an object literal whose own values are
    numbers: a number, [undefined], or something inherited from
    [Object.prototype] (a function, or the prototype itself). *)
Inductive value :=
| Undefined
| Number (n : Z)
| Object.

(** IEEE numbers as far as [Math.max] and [<] need them here. *)
Inductive num :=
| NegInfinity
| Finite (n : Z)
| NaN.

(** Property names every object literal inherits from [Object.prototype]. *)
Definition objectPrototypeKeys : list string :=
  [ "constructor"; "__defineGetter__"; "__defineSetter__"; "hasOwnProperty";
    "__lookupGetter__"; "__lookupSetter__"; "isPrototypeOf";
    "propertyIsEnumerable"; "toString"; "valueOf"; "__proto__";
    "toLocaleString" ].

(** [obj[key]] for an object literal given by its own entries. *)
Fixpoint ownProperty (entries : list (string * Z)) (key : string) : option Z :=
  match entries with
  | [] => None
  | (k, v) :: rest => if bool_decide (k = key) then Some v else ownProperty rest key
  end.

Definition getProperty (entries : list (string * Z)) (key : string) : value :=
  match ownProperty entries key with
  | Some n => Number n
  | None => if bool_decide (key ∈ objectPrototypeKeys) then Object else Undefined
  end.

(** [v || 0] *)
Definition orZero (v : value) : value :=
  match v with
  | Undefined => Number 0
  | Number 0 => Number 0
  | other => other
  end.

(** [ToNumber]: [undefined] and the inherited objects all convert to NaN. *)
Definition toNumber (v : value) : num :=
  match v with
  | Number n => Finite n
  | Undefined | Object => NaN
  end.

Definition max2 (a b : num) : num :=
  match a, b with
  | NaN, _ | _, NaN => NaN
  | NegInfinity, x | x, NegInfinity => x
  | Finite x, Finite y => Finite (Z.max x y)
  end.

(** [Math.max(...values)]: [-Infinity] on no argument, NaN as soon as one
    argument is NaN. *)
Definition Math_max (values : list value) : num :=
  foldr max2 NegInfinity (toNumber <$> values).

(** [a < b] on numbers; any comparison with NaN is false. *)
Definition num_lt (a b : num) : bool :=
  match a, b with
  | NaN, _ | _, NaN => false
  | Finite x, Finite y => x <? y
  | NegInfinity, Finite _ => true
  | _, NegInfinity => false
  end.

(** [v < n] with [v] a property value. *)
Definition lt (v : value) (n : num) : bool := num_lt (toNumber v) n.

(** Truthiness of a string-or-null parameter. *)
Definition truthy (s : option string) : bool :=
  match s with
  | None => false
  | Some s => negb (bool_decide (s = ""))
  end.

(** [array.includes(x)] on an array of strings. *)
Definition includes (l : list string) (x : string) : bool := bool_decide (x ∈ l).

(** [toUpperCase] on the ASCII letters (module names are ASCII words). *)
Definition upperAscii (c : ascii) : ascii :=
  let n := nat_of_ascii c in
  if (97 <=? n)%nat && (n <=? 122)%nat then ascii_of_nat (n - 32) else c.

Fixpoint toUpperCase (s : string) : string :=
  match s with
  | EmptyString => EmptyString
  | String c rest => String (upperAscii c) (toUpperCase rest)
  end.

(** Strings are held as the bytes of their UTF-8 encoding.  [s.length]
    counts UTF-16 code units: one for a character of the basic plane (a
    sequence of one, two or three bytes), two for any other character (a
    sequence of four bytes).  Continuation bytes count for nothing. *)
Definition unitsOfByte (c : ascii) : nat :=
  let n := nat_of_ascii c in
  if (n <? 128)%nat then 1%nat
  else if (n <? 192)%nat then 0%nat
  else if (n <? 240)%nat then 1%nat
  else 2%nat.

Fixpoint String_length (s : string) : nat :=
  match s with
  | EmptyString => 0%nat
  | String c rest => (unitsOfByte c + String_length rest)%nat
  end.

End Js.

(** ** What a middleware does with a request *)

Inductive outcome (A : Type) :=
| Next (x : A)
| Send (status : Z) (message : string).
Arguments Next {A} x.
Arguments Send {A} status message.

(** ** middleware/authorize.js *)

Module Authorize.

(** [req.user] as the authentication gate builds it. *)
Record principal := Principal {
  userId : nat;
  email : string;
  role : string;
  modules : option (list string)
}.

Definition roleHierarchy : list (string * Z) :=
  [ ("super_admin", 100); ("admin", 90); ("dube_admin", 80); ("wfp_admin", 80);
    ("dube_viewer", 70); ("wfp_viewer", 70); ("dube_field_agent", 60);
    ("wfp_health_officer", 60); ("user", 0) ].

(** The message of the module refusal. *)
Definition moduleDenied (module : string) : string :=
  "Access denied. You don't have access to " ++ Js.toUpperCase module ++ " module.".

(** The middleware [authorize(allowedRoles, module)] applied to a request
    whose [user] is given.  On an array of role names, a module name or
    null, and a principal as above, nothing in the body throws, so the
    [catch] branch (500) does not appear. *)
Definition authorize (allowedRoles : list string) (module : option string)
    (user : option principal) : outcome unit :=
  match user with
  | None => Send 401 "Authentication required"
  | Some u =>
    let userRole := role u in
    let userModules := default [] (modules u) in
    if bool_decide (userRole = "super_admin") then Next tt
    else if Js.truthy module && negb (Js.includes userModules (default "" module)) then
      Send 403 (moduleDenied (default "" module))
    else if (0 <? Z.of_nat (List.length allowedRoles)) && negb (Js.includes allowedRoles userRole) then
      Send 403 "Access denied. Insufficient permissions."
    else if Js.truthy module && bool_decide (userRole = "admin") then Next tt
    else
      let allowedRoleLevels :=
        (fun role => Js.orZero (Js.getProperty roleHierarchy role)) <$> allowedRoles in
      let minRequiredLevel := Js.Math_max allowedRoleLevels in
      if Js.lt (Js.getProperty roleHierarchy userRole) minRequiredLevel then
        Send 403 "Access denied. Higher privileges required."
      else Next tt
  end.

(** Names for the parts of [authorize] that the statements below talk
    about: the rank a role has in the table, the levels of a role list,
    and the module and role-list checks. *)
Definition rank (r : string) : option Z := Js.ownProperty roleHierarchy r.

Definition levels (allowedRoles : list string) : list Js.value :=
  (fun role => Js.orZero (Js.getProperty roleHierarchy role)) <$> allowedRoles.

Definition withRole (u : principal) (r : string) : principal :=
  {| userId := userId u; email := email u; role := r; modules := modules u |}.

(** The module check of [authorize] passes for this principal. *)
Definition moduleOk (module : option string) (u : principal) : bool :=
  negb (Js.truthy module && negb (Js.includes (default [] (modules u)) (default "" module))).

(** The role-list check of [authorize] passes. *)
Definition listOk (allowedRoles : list string) (r : string) : bool :=
  negb ((0 <? Z.of_nat (List.length allowedRoles)) && negb (Js.includes allowedRoles r)).

End Authorize.

(** ** jsonwebtoken, seen symbolically

    A compact JWS produced by [jwt.sign] with HS256 is determined by its
    payload (with the [iat] and [exp] that [sign] adds) and by the secret it
    is signed with; [jwt.verify] accepts a signature exactly when it is
    checked with the secret that made it.  [Garbage] is any string that is
    not a well-formed JWS.  The clock of the library counts seconds. *)

Module Jwt.

Inductive payload :=
| AccessPayload (userId : nat) (email : string) (role : string)
                (modules : option (list string))
| RefreshPayload (userId : nat).

Definition userId (p : payload) : nat :=
  match p with
  | AccessPayload i _ _ _ => i
  | RefreshPayload i => i
  end.

Inductive token :=
| Garbage (raw : string)
| Signed (body : payload) (iat exp : Z) (secret : string).

#[global] Instance payload_eq_dec : EqDecision payload.
Proof. solve_decision. Defined.

#[global] Instance token_eq_dec : EqDecision token.
Proof. solve_decision. Defined.

(** [!token] for a token string. *)
Definition falsy (t : option token) : bool :=
  match t with
  | None => true
  | Some (Garbage raw) => bool_decide (raw = "")
  | Some (Signed _ _ _ _) => false
  end.

(** [jwt.sign(payload, secret, { expiresIn })]; throws ([None]) when the
    secret has no value. *)
Definition sign (body : payload) (secret : option string) (expiresIn : Z)
    (clock : Z) : option token :=
  match secret with
  | None => None
  | Some k => if bool_decide (k = "") then None
              else Some (Signed body clock (clock + expiresIn) k)
  end.

Inductive error :=
| TokenExpiredError
| JsonWebTokenError.

(** [jwt.verify(token, secret)]: malformed token, missing secret and bad
    signature are reported before expiry. *)
Definition verify (t : token) (secret : option string) (clock : Z)
    : error + payload :=
  match t, secret with
  | Garbage _, _ => inl JsonWebTokenError
  | Signed _ _ _ _, None => inl JsonWebTokenError
  | Signed body _ exp k, Some k' =>
    if bool_decide (k' = "") then inl JsonWebTokenError
    else if negb (bool_decide (k = k')) then inl JsonWebTokenError
    else if exp <=? clock then inl TokenExpiredError
    else inr body
  end.

End Jwt.

(** ** process.env and config/jwt.js *)

Module Config.

(** The variables the auth code reads.  Expiry spans are kept as their
    value in seconds. *)
Record Env := {
  JWT_SECRET : option string;
  JWT_ACCESS_SECRET : option string;
  JWT_REFRESH_SECRET : option string;
  JWT_ACCESS_EXPIRATION : option Z;
  JWT_REFRESH_EXPIRATION : option Z;
  NODE_ENV : option string
}.

(** [a || b] on environment strings. *)
Definition orElse (a b : option string) : option string :=
  if Js.truthy a then a else b.

Definition ACCESS_SECRET (env : Env) : string :=
  default "" (orElse (orElse (JWT_ACCESS_SECRET env) (JWT_SECRET env))
                     (Some "your-access-secret-key-change-this-in-production")).

Definition REFRESH_SECRET (env : Env) : string :=
  default "" (orElse (orElse (JWT_REFRESH_SECRET env) (JWT_SECRET env))
                     (Some "your-refresh-secret-key-change-this-in-production")).

Fixpoint isPrefix (p s : string) : bool :=
  match p, s with
  | EmptyString, _ => true
  | String a p', String b s' => bool_decide (a = b) && isPrefix p' s'
  | String _ _, EmptyString => false
  end.

(** [s.includes(sub)] *)
Fixpoint stringIncludes (s sub : string) : bool :=
  isPrefix sub s ||
  match s with
  | EmptyString => false
  | String _ s' => stringIncludes s' sub
  end.

Inductive validation :=
| Throws (message : list string)
| Returns (errors : list string) (warnedSameSecret : bool).

(** [validateConfig]: identical secrets only produce a console warning. *)
Definition validateConfig (env : Env) : validation :=
  let e1 := if bool_decide (ACCESS_SECRET env = "")
               || stringIncludes (ACCESS_SECRET env) "change-this"
            then ["JWT_ACCESS_SECRET is not set or is using default value"] else [] in
  let e2 := if bool_decide (REFRESH_SECRET env = "")
               || stringIncludes (REFRESH_SECRET env) "change-this"
            then ["JWT_REFRESH_SECRET is not set or is using default value"] else [] in
  let errors := (e1 ++ e2)%list in
  let warned := bool_decide (ACCESS_SECRET env = REFRESH_SECRET env) in
  if (0 <? Z.of_nat (List.length errors)) && bool_decide (NODE_ENV env = Some "production")
  then Throws errors
  else Returns errors warned.

End Config.

(** ** config/constants.js, models/User.js, models/Token.js *)

Module Models.

Definition ROLES : list (string * string) :=
  [ ("ADMIN", "admin"); ("DUBE_ADMIN", "dube_admin"); ("DUBE_VIEWER", "dube_viewer");
    ("WFP_ADMIN", "wfp_admin"); ("WFP_VIEWER", "wfp_viewer"); ("USER", "user") ].

Definition Object_values (o : list (string * string)) : list string := snd <$> o.

(** bcrypt, symbolically.  bcryptjs appends a NUL byte to the UTF-8 bytes
    of the password and hands the result to the Blowfish key schedule,
    which reads 72 bytes of it, starting over at its end as often as
    needed: those 72 bytes are the key, and nothing else of the password
    enters the hash.  A hash remembers what it is the hash of; a candidate
    compares successfully with it exactly when both have the same key. *)
Inductive bcryptHash := Bcrypt (plain : string).

Definition bcryptKey (pw : string) : string :=
  substring 0 72 (String.concat "" (repeat (pw ++ String Ascii.zero "") 72)).

Definition bcrypt_compare (candidate : string) (h : bcryptHash) : bool :=
  match h with Bcrypt plain => bool_decide (bcryptKey candidate = bcryptKey plain) end.

(** A stored user document, with the paths the auth code reads.  Its
    [_id] is its position in the collection; users are never removed. *)
Record User := {
  email : string;
  password : bcryptHash;
  role : string;
  accessibleModules : list string;
  isActive : bool
}.

(** The schema declares [accessibleModules]; it has no path [modules], so
    reading [user.modules] on a document gives [undefined]. *)
Definition modules (u : User) : option (list string) := None.

(** What is handed to [new User(...)] / assigned before [save()]; a path
    left undefined is [None].  Roles are strings here. *)
Record UserDraft := {
  d_email : string;
  d_password : string;
  d_role : option string;
  d_accessibleModules : list string;
  d_isActive : option bool
}.

(** Validators of the schema paths: [role] must be one of
    [Object.values(ROLES)], each accessible module one of dube / wfp, the
    password of [length] six at least.  (The validators of name, e-mail
    syntax, phone and country only reject more documents.) *)
Definition validRole (r : string) : bool := Js.includes (Object_values ROLES) r.
Definition validModules (ms : list string) : bool :=
  forallb (Js.includes ["dube"; "wfp"]) ms.
Definition validPassword (pw : string) : bool := (6 <=? Js.String_length pw)%nat.

(** Defaults ([ROLES.USER], active), validation of every path, then the
    pre-save hook that hashes the password. *)
Definition validate (d : UserDraft) : option User :=
  let r := default "user" (d_role d) in
  if validRole r && validModules (d_accessibleModules d) && validPassword (d_password d)
  then Some {| email := d_email d; password := Bcrypt (d_password d); role := r;
               accessibleModules := d_accessibleModules d;
               isActive := default true (d_isActive d) |}
  else None.

Definition setPassword (u : User) (pw : string) : User :=
  {| email := email u; password := Bcrypt pw; role := role u;
     accessibleModules := accessibleModules u; isActive := isActive u |}.

Inductive tokenType := refresh | reset_password | verify_email.

#[global] Instance tokenType_eq_dec : EqDecision tokenType.
Proof. solve_decision. Defined.

Record TokenDoc := {
  t_userId : nat;
  token : Jwt.token;
  type : tokenType;
  expiresAt : Z;
  used : bool;
  ipAddress : string;
  userAgent : option string
}.

Definition markUsed (d : TokenDoc) : TokenDoc :=
  {| t_userId := t_userId d; token := token d; type := type d;
     expiresAt := expiresAt d; used := true;
     ipAddress := ipAddress d; userAgent := userAgent d |}.

(** The two collections. *)
Record Db := { users : list User; tokens : list TokenDoc }.

Definition emptyDb : Db := {| users := []; tokens := [] |}.

Definition withUsers (db : Db) (us : list User) : Db :=
  {| users := us; tokens := tokens db |}.
Definition withTokens (db : Db) (ts : list TokenDoc) : Db :=
  {| users := users db; tokens := ts |}.

(** [User.findById(id)] *)
Definition User_findById (db : Db) (id : nat) : option User := users db !! id.

(** [User.findOne({ email })], the address being the one the query is
    run with, that is as the schema's setters leave it. *)
Definition User_findOne (db : Db) (e : string) : option (nat * User) :=
  list_find (fun u => email u = e) (users db).

(** [Token.create(doc)]: the unique index on [token] rejects a second
    document holding the same string. *)
Definition Token_create (db : Db) (d : TokenDoc) : option Db :=
  if bool_decide (token d ∈ (token <$> tokens db)) then None
  else Some (withTokens db (tokens db ++ [d])%list).

End Models.

(** ** controllers/authController.js *)

Module AuthController.
Import Models Config.

(** A JSON reply: status, message and, on success, the token pair. *)
Record reply := Reply {
  status : Z;
  message : string;
  data : option (Jwt.token * Jwt.token)
}.

(** Seconds on the clock of jsonwebtoken when [Date.now()] is [now] ms. *)
Definition clock (now : Z) : Z := now / 1000.

(** [generateTokens(user)]; [None] when [jwt.sign] throws. *)
Definition generateTokens (env : Env) (now : Z) (id : nat) (user : User)
    : option (Jwt.token * Jwt.token) :=
  match Jwt.sign (Jwt.AccessPayload id (email user) (role user) (modules user))
                 (JWT_SECRET env) (default 900 (JWT_ACCESS_EXPIRATION env)) (clock now) with
  | None => None
  | Some accessToken =>
    match Jwt.sign (Jwt.RefreshPayload id) (JWT_REFRESH_SECRET env)
                   (default 604800 (JWT_REFRESH_EXPIRATION env)) (clock now) with
    | None => None
    | Some refreshToken => Some (accessToken, refreshToken)
    end
  end.

(** [saveRefreshToken(userId, refreshToken, ipAddress, userAgent)] *)
Definition saveRefreshToken (now : Z) (id : nat) (refreshToken : Jwt.token)
    (ip : string) (ua : option string) (db : Db) : option Db :=
  Token_create db {| t_userId := id; token := refreshToken; type := refresh;
                     expiresAt := now + 7 * 24 * 60 * 60 * 1000; used := false;
                     ipAddress := ip; userAgent := ua |}.

(** The filter of [Token.findOne] in [refreshToken]. *)
Definition unusedRefresh (t : Jwt.token) (now : Z) (d : TokenDoc) : Prop :=
  token d = t ∧ type d = refresh ∧ used d = false ∧ now < expiresAt d.

#[global] Instance unusedRefresh_dec t now d : Decision (unusedRefresh t now d).
Proof. unfold unusedRefresh. apply _. Defined.

Definition Token_findOne (db : Db) (t : Jwt.token) (now : Z) : option (nat * TokenDoc) :=
  list_find (unusedRefresh t now) (tokens db).

(** [tokenDoc.used = true; await tokenDoc.save()] on the document at [i]. *)
Definition tokenDoc_save_used (db : Db) (i : nat) : Db :=
  withTokens db (alter markUsed i (tokens db)).

(** POST /refresh-token, run without interruption. *)
Definition refreshToken (env : Env) (now : Z) (refreshToken : option Jwt.token)
    (ip : string) (ua : option string) (db : Db) : reply * Db :=
  match refreshToken with
  | None => (Reply 400 "Refresh token is required" None, db)
  | Some t =>
    if Jwt.falsy (Some t) then (Reply 400 "Refresh token is required" None, db)
    else
      match Jwt.verify t (JWT_REFRESH_SECRET env) (clock now) with
      | inl _ => (Reply 401 "Invalid refresh token" None, db)
      | inr decoded =>
        match Token_findOne db t now with
        | None => (Reply 401 "Refresh token expired or invalid" None, db)
        | Some (i, tokenDoc) =>
          match User_findById db (Jwt.userId decoded) with
          | None => (Reply 401 "User not found" None, db)
          | Some user =>
            match generateTokens env now (Jwt.userId decoded) user with
            | None => (Reply 500 "Token refresh failed" None, db)
            | Some (newAccessToken, newRefreshToken) =>
              let db1 := tokenDoc_save_used db i in
              match saveRefreshToken now (Jwt.userId decoded) newRefreshToken ip ua db1 with
              | None => (Reply 500 "Token refresh failed" None, db1)
              | Some db2 =>
                (Reply 200 "Token refreshed successfully"
                       (Some (newAccessToken, newRefreshToken)), db2)
              end
            end
          end
        end
      end
  end.

(** *** The same handler as the event loop runs it

    An [async] function gives up control at each [await]; every database
    call is one atomic operation of the store.  A task records where a
    request stands and the local variables it still needs. *)
Inductive task :=
| Entered (refreshToken : option Jwt.token) (ip : string) (ua : option string)
| AwaitedFindOne (decoded : Jwt.payload) (tokenDoc : option (nat * TokenDoc))
                 (ip : string) (ua : option string)
| AwaitedFindById (decoded : Jwt.payload) (i : nat) (user : option User)
                  (ip : string) (ua : option string)
| AwaitedSave (id : nat) (newAccessToken newRefreshToken : Jwt.token)
              (ip : string) (ua : option string)
| Replied (r : reply).

(** Run a task up to and including its next database call. *)
Definition step (env : Env) (now : Z) (db : Db) (k : task) : Db * task :=
  match k with
  | Entered rt ip ua =>
    match rt with
    | None => (db, Replied (Reply 400 "Refresh token is required" None))
    | Some t =>
      if Jwt.falsy (Some t) then (db, Replied (Reply 400 "Refresh token is required" None))
      else
        match Jwt.verify t (JWT_REFRESH_SECRET env) (clock now) with
        | inl _ => (db, Replied (Reply 401 "Invalid refresh token" None))
        | inr decoded => (db, AwaitedFindOne decoded (Token_findOne db t now) ip ua)
        end
    end
  | AwaitedFindOne decoded tokenDoc ip ua =>
    match tokenDoc with
    | None => (db, Replied (Reply 401 "Refresh token expired or invalid" None))
    | Some (i, _) =>
      (db, AwaitedFindById decoded i (User_findById db (Jwt.userId decoded)) ip ua)
    end
  | AwaitedFindById decoded i user ip ua =>
    match user with
    | None => (db, Replied (Reply 401 "User not found" None))
    | Some u =>
      match generateTokens env now (Jwt.userId decoded) u with
      | None => (db, Replied (Reply 500 "Token refresh failed" None))
      | Some (a, r) => (tokenDoc_save_used db i, AwaitedSave (Jwt.userId decoded) a r ip ua)
      end
    end
  | AwaitedSave id a r ip ua =>
    match saveRefreshToken now id r ip ua db with
    | None => (db, Replied (Reply 500 "Token refresh failed" None))
    | Some db' => (db', Replied (Reply 200 "Token refreshed successfully" (Some (a, r))))
    end
  | Replied r => (db, Replied r)
  end.

(** One request run to its reply with nothing in between. *)
Definition runAlone (env : Env) (now : Z) (db : Db) (k : task) : Db * task :=
  let '(db1, k1) := step env now db k in
  let '(db2, k2) := step env now db1 k1 in
  let '(db3, k3) := step env now db2 k2 in
  step env now db3 k3.

(** Two requests in flight: the schedule says which one resumes next and
    what time it is then. *)
Inductive which := First | Second.

Fixpoint interleave (env : Env) (schedule : list (which * Z)) (db : Db)
    (a b : task) : Db * task * task :=
  match schedule with
  | [] => (db, a, b)
  | (First, now) :: rest =>
    let '(db', a') := step env now db a in interleave env rest db' a' b
  | (Second, now) :: rest =>
    let '(db', b') := step env now db b in interleave env rest db' a b'
  end.

(** POST /login.  [invalid] is the verdict of the route's validators. *)
Definition login (env : Env) (now : Z) (invalid : bool) (e pw : string)
    (ip : string) (ua : option string) (db : Db) : reply * Db :=
  if invalid then (Reply 400 "" None, db)
  else
    match User_findOne db e with
    | None => (Reply 401 "Invalid credentials" None, db)
    | Some (id, user) =>
      if negb (isActive user) then (Reply 403 "Account is deactivated" None, db)
      else if negb (bcrypt_compare pw (password user)) then
        (Reply 401 "Invalid credentials" None, db)
      else
        match generateTokens env now id user with
        | None => (Reply 500 "Login failed" None, db)
        | Some (accessToken, refreshToken) =>
          match saveRefreshToken now id refreshToken ip ua db with
          | None => (Reply 500 "Login failed" None, db)
          | Some db1 => (Reply 200 "Login successful" (Some (accessToken, refreshToken)), db1)
          end
        end
    end.

(** POST /register: [role] defaults to "user"; [user.save()] validates. *)
Definition register (env : Env) (now : Z) (invalid : bool) (e pw : string)
    (r : option string) (ip : string) (ua : option string) (db : Db) : reply * Db :=
  if invalid then (Reply 400 "" None, db)
  else
    match User_findOne db e with
    | Some _ => (Reply 409 "User already exists" None, db)
    | None =>
      match validate {| d_email := e; d_password := pw; d_role := Some (default "user" r);
                        d_accessibleModules := []; d_isActive := None |} with
      | None => (Reply 500 "Registration failed" None, db)
      | Some user =>
        let id := List.length (users db) in
        let db1 := withUsers db (users db ++ [user])%list in
        match generateTokens env now id user with
        | None => (Reply 500 "Registration failed" None, db1)
        | Some (accessToken, refreshToken) =>
          match saveRefreshToken now id refreshToken ip ua db1 with
          | None => (Reply 500 "Registration failed" None, db1)
          | Some db2 =>
            (Reply 201 "User registered successfully" (Some (accessToken, refreshToken)), db2)
          end
        end
      end
    end.

(** POST /logout: [Token.findOneAndUpdate({ token, type }, { used: true })] *)
Definition logout (refreshToken : option Jwt.token) (db : Db) : reply * Db :=
  if Jwt.falsy refreshToken then (Reply 200 "Logout successful" None, db)
  else
    match list_find (fun d => Some (token d) = refreshToken ∧ type d = refresh) (tokens db) with
    | None => (Reply 200 "Logout successful" None, db)
    | Some (i, _) => (Reply 200 "Logout successful" None, tokenDoc_save_used db i)
    end.

(** [Token.updateMany({ userId, type: "refresh", used: false }, { used: true })] *)
Definition Token_updateMany_used (id : nat) (db : Db) : Db :=
  withTokens db
    ((fun d => if bool_decide (t_userId d = id ∧ type d = refresh ∧ used d = false)
               then markUsed d else d) <$> tokens db).

(** POST /change-password for the authenticated [req.user.userId]; saving
    validates the modified path, the new password. *)
Definition changePassword (id : nat) (currentPassword newPassword : string) (db : Db)
    : reply * Db :=
  match User_findById db id with
  | None => (Reply 404 "User not found" None, db)
  | Some user =>
    if negb (bcrypt_compare currentPassword (password user)) then
      (Reply 401 "Current password is incorrect" None, db)
    else
      if negb (validPassword newPassword) then
        (Reply 500 "Failed to change password" None, db)
      else
        let db1 := withUsers db (<[id := setPassword user newPassword]> (users db)) in
        (Reply 200 "Password changed successfully" None, Token_updateMany_used id db1)
  end.

End AuthController.

(** ** middleware/auth.js *)

Module Auth.
Import Models Config.

(** The [Authorization] header: [Bearer t] stands for a header that starts
    with "Bearer " and whose second space-separated word is [t]. *)
Inductive authorization :=
| Bearer (t : Jwt.token)
| OtherScheme (raw : string).

Definition authenticate (env : Env) (now : Z) (authHeader : option authorization)
    (db : Db) : outcome Authorize.principal :=
  match authHeader with
  | None | Some (OtherScheme _) => Send 401 "Access denied. No token provided."
  | Some (Bearer t) =>
    match Jwt.verify t (JWT_SECRET env) (AuthController.clock now) with
    | inl Jwt.TokenExpiredError => Send 401 "Token expired"
    | inl Jwt.JsonWebTokenError => Send 401 "Invalid token"
    | inr decoded =>
      match User_findById db (Jwt.userId decoded) with
      | None => Send 401 "User not found"
      | Some user =>
        if negb (isActive user) then Send 403 "Account is deactivated"
        else Next {| Authorize.userId := Jwt.userId decoded;
                     Authorize.email := email user;
                     Authorize.role := role user;
                     Authorize.modules := modules user |}
      end
    end
  end.

End Auth.

(** ** middleware/wfpAuth.js: the cycle guard *)

Module WfpAuth.

(** [req.user] as this guard reads it; assigned cycles are held by the
    string their [toString()] gives. *)
Record user := {
  role : string;
  assignedCycles : option (list string)
}.

(** What a request object holds under a name, as far as [||] and
    [toString()] tell values apart. *)
Inductive value :=
| Falsy                          (* undefined, null, false, 0, NaN *)
| Str (s : string)               (* a string; the empty one is falsy *)
| Other (text : option string).  (* any other value: true, a non-zero number,
                                    an array, an object, a function.  It is
                                    truthy; [text] is what its toString()
                                    returns, [None] when that call throws
                                    (an own [toString] that is no function) *)

Definition truthy (v : value) : bool :=
  match v with
  | Falsy => false
  | Str s => negb (bool_decide (s = ""))
  | Other _ => true
  end.

(** [v.toString()] on a truthy value; [None] when the call throws. *)
Definition toString (v : value) : option string :=
  match v with
  | Falsy => None
  | Str s => Some s
  | Other text => text
  end.

(** [toString()] of what [Object.prototype] holds under one of its names:
    the prototype itself under [__proto__], built-in functions elsewhere. *)
Definition nativeText (name : string) : string :=
  if bool_decide (name = "__proto__") then "[object Object]"
  else "function " ++ (if bool_decide (name = "constructor") then "Object" else name)
       ++ "() { [native code] }".

(** [obj[key]] on an object given by its own properties: the own value,
    else what [Object.prototype] holds under that name, else undefined. *)
Definition get (obj : gmap string value) (key : string) : value :=
  match obj !! key with
  | Some v => v
  | None =>
    if bool_decide (key ∈ Js.objectPrototypeKeys) then Other (Some (nativeText key))
    else Falsy
  end.

(** Route parameters, body and query string, each an object
    (express.json / urlencoded are installed in app.js, so [req.body] is
    an object). *)
Record request := {
  req_user : option user;
  params : gmap string value;
  body : gmap string value;
  query : gmap string value
}.

(** [a || b] on strings that may be undefined. *)
Definition firstTruthy (a b : option string) : option string :=
  if Js.truthy a then a else b.

(** [a || b] *)
Definition or (a b : value) : value := if truthy a then a else b.

(** [req.params[p] || req.body[p] || req.query[p]] *)
Definition cycleIdOf (cycleIdParam : string) (req : request) : value :=
  or (or (get (params req) cycleIdParam) (get (body req) cycleIdParam))
     (get (query req) cycleIdParam).

(** [cycles.some(c => c.toString() === cycleId.toString())]: the callback
    runs once per element until it answers true, so nothing is called on
    an empty array; [None] when [cycleId.toString()] throws. *)
Definition some_isCycle (cycles : list string) (cycleId : value) : option bool :=
  match cycles with
  | [] => Some false
  | _ :: _ =>
    match toString cycleId with
    | None => None
    | Some c => Some (existsb (fun assignedCycle => bool_decide (assignedCycle = c)) cycles)
    end
  end.

Definition canManageCycle (cycleIdParam : string) (req : request) : outcome unit :=
  match req_user req with
  | None => Send 401 "Authentication required"
  | Some u =>
    if bool_decide (role u = "admin") then Next tt
    else
      let cycleId := cycleIdOf cycleIdParam req in
      if negb (truthy cycleId) then Next tt
      else
        let isAssigned :=
          match assignedCycles u with
          | None => Some false
          | Some cycles => some_isCycle cycles cycleId
          end in
        match isAssigned with
        | None => Send 500 "Internal server error during cycle check"
        | Some isAssigned =>
          if bool_decide (role u = "wfp_admin") || isAssigned then Next tt
          else Send 403 "You are not authorized to manage this cycle"
        end
  end.

End WfpAuth.

(** ** The store over time *)

Module System.
Import Models Config AuthController.

(** Everything that writes to the two collections. [SaveUser] stands for
    any other write through the User model (provisioning, seeding,
    suspension): a draft that passes validation is stored as a new
    document or over an existing one. *)
Inductive op :=
| Register (env : Env) (now : Z) (invalid : bool) (e pw : string) (r : option string)
           (ip : string) (ua : option string)
| Login (env : Env) (now : Z) (invalid : bool) (e pw : string)
        (ip : string) (ua : option string)
| RefreshToken (env : Env) (now : Z) (rt : option Jwt.token)
               (ip : string) (ua : option string)
| Logout (rt : option Jwt.token)
| ChangePassword (id : nat) (currentPassword newPassword : string)
| SaveUser (id : option nat) (d : UserDraft).

Definition User_save (id : option nat) (d : UserDraft) (db : Db) : Db :=
  match validate d with
  | None => db
  | Some u =>
    match id with
    | None => withUsers db (users db ++ [u])%list
    | Some i => withUsers db (<[i := u]> (users db))
    end
  end.

Definition apply (o : op) (db : Db) : Db :=
  match o with
  | Register env now invalid e pw r ip ua => snd (register env now invalid e pw r ip ua db)
  | Login env now invalid e pw ip ua => snd (login env now invalid e pw ip ua db)
  | RefreshToken env now rt ip ua => snd (refreshToken env now rt ip ua db)
  | Logout rt => snd (logout rt db)
  | ChangePassword id cur new => snd (changePassword id cur new db)
  | SaveUser id d => User_save id d db
  end.

Definition applyAll (os : list op) (db : Db) : Db := foldl (fun d o => apply o d) db os.

Inductive reachable : Db -> Prop :=
| reachable_empty : reachable emptyDb
| reachable_apply db o : reachable db -> reachable (apply o db).

(** What holds of every reachable store. *)
Record invariant (db : Db) : Prop := {
  inv_roles : Forall (fun u => role u ∈ Object_values ROLES) (users db);
  inv_unique : NoDup (token <$> tokens db);
  inv_signed : Forall (fun d => Jwt.falsy (Some (token d)) = false) (tokens db)
}.

(** Suspension of an account: [isActive] is set to false. *)
Definition deactivate (u : User) : User :=
  {| email := email u; password := password u; role := role u;
     accessibleModules := accessibleModules u; isActive := false |}.

Definition suspend (id : nat) (db : Db) : Db :=
  withUsers db (alter deactivate id (users db)).

(** A refresh token that has been exchanged: it is on record, and every
    record of it is marked used. *)
Definition spent (t : Jwt.token) (db : Db) : Prop :=
  t ∈ (token <$> tokens db) ∧
  Forall (fun d => token d = t -> used d = true) (tokens db).

End System.

(** ** Concrete runs used below *)

Module Scenario.
Import Models Config AuthController.

Definition env : Env :=
  {| JWT_SECRET := Some "access-secret"; JWT_ACCESS_SECRET := None;
     JWT_REFRESH_SECRET := Some "refresh-secret";
     JWT_ACCESS_EXPIRATION := None; JWT_REFRESH_EXPIRATION := None;
     NODE_ENV := Some "production" |}.



Definition t0 : Z := 1700000000000.

(** A viewer registers at [t0] ... *)
Definition registered (e : Env) : reply * Db :=
  register e t0 false "viewer@wfp.org" "Passw0rd!" (Some "wfp_viewer") "10.0.0.1" None emptyDb.

Definition db0 : Db := snd (registered env).

Definition refresh0 : option Jwt.token := snd <$> data (fst (registered env)).
Definition access0 : option Jwt.token := fst <$> data (fst (registered env)).

(** ... logs in again five seconds later from another device ... *)
Definition loggedIn : reply * Db :=
  login env (t0 + 5000) false "viewer@wfp.org" "Passw0rd!" "10.0.0.2" None db0.

Definition db1 : Db := snd loggedIn.
Definition refresh1 : option Jwt.token := snd <$> data (fst loggedIn).

(** ... and is suspended. *)
Definition suspended : Db :=
  System.User_save (Some 0%nat)
    {| d_email := "viewer@wfp.org"; d_password := "Passw0rd!";
       d_role := Some "wfp_viewer"; d_accessibleModules := [];
       d_isActive := Some false |} db0.

(** From [db1], the first refresh token is exchanged a minute after
    registration. *)
Definition exchanged : reply * Db :=
  refreshToken env (t0 + 60000) refresh0 "10.0.0.1" None db1.

Definition db2 : Db := snd exchanged.

(** Two requests presenting the first refresh token are in flight at the
    same time; each resumes in turn, the second one a second behind. *)
Definition schedule : list (which * Z) :=
  [ (First, t0 + 60000); (Second, t0 + 60001);
    (First, t0 + 60002); (Second, t0 + 60003);
    (First, t0 + 60004); (Second, t0 + 61005);
    (First, t0 + 61006); (Second, t0 + 61007) ].

Definition raced : Db * task * task :=
  interleave env schedule db0
    (Entered refresh0 "10.0.0.1" None) (Entered refresh0 "10.0.0.9" None).

Definition officer : WfpAuth.user :=
  {| WfpAuth.role := "wfp_health_officer";
     WfpAuth.assignedCycles := Some ["c1"; "c2"] |}.

Definition wfpAdmin : Authorize.principal :=
  {| Authorize.userId := 7; Authorize.email := "admin@wfp.org";
     Authorize.role := "wfp_admin"; Authorize.modules := Some ["wfp"] |}.

Definition wfpViewer : Authorize.principal :=
  {| Authorize.userId := 8; Authorize.email := "viewer@wfp.org";
     Authorize.role := "wfp_viewer"; Authorize.modules := Some ["wfp"] |}.

End Scenario.

(** ** middleware/authorize.js: the permission check *)

Module Permission.

Definition permissionMap : list (string * list string) :=
  [ ("dube.merchant.create", ["dube_admin"; "admin"; "super_admin"]);
    ("dube.merchant.view", ["dube_admin"; "dube_viewer"; "admin"; "super_admin"]);
    ("dube.customer.create", ["dube_admin"; "dube_field_agent"; "admin"; "super_admin"]);
    ("dube.customer.view",
     ["dube_admin"; "dube_viewer"; "dube_field_agent"; "admin"; "super_admin"]);
    ("wfp.beneficiary.create", ["wfp_admin"; "wfp_health_officer"; "admin"; "super_admin"]);
    ("wfp.beneficiary.view",
     ["wfp_admin"; "wfp_viewer"; "wfp_health_officer"; "admin"; "super_admin"]);
    ("user.manage", ["admin"; "super_admin"]);
    ("system.settings", ["super_admin"]) ].

(** The [length] of what an object literal inherits under each name of
    [Object.prototype]: the arity of the function, or nothing for the
    prototype object itself. *)
Definition inheritedLength : list (string * option Z) :=
  [ ("constructor", Some 1); ("__defineGetter__", Some 2); ("__defineSetter__", Some 2);
    ("hasOwnProperty", Some 1); ("__lookupGetter__", Some 1); ("__lookupSetter__", Some 1);
    ("isPrototypeOf", Some 1); ("propertyIsEnumerable", Some 1); ("toString", Some 0);
    ("valueOf", Some 0); ("__proto__", None); ("toLocaleString", Some 0) ].

Fixpoint assoc {A : Type} (entries : list (string * A)) (key : string) : option A :=
  match entries with
  | [] => None
  | (k, v) :: rest => if bool_decide (k = key) then Some v else assoc rest key
  end.

(** [permissionMap[permission] || []] *)
Inductive entry :=
| Roles (allowedRoles : list string)
| Inherited (length : option Z).

Definition lookup (permission : string) : entry :=
  match assoc permissionMap permission with
  | Some roles => Roles roles
  | None =>
    match assoc inheritedLength permission with
    | Some len => Inherited len
    | None => Roles []
    end
  end.

Definition missingPermission (permission : string) : string :=
  "Access denied. Missing permission: " ++ permission.

(** [hasPermission(permission)] applied to a request whose [user] is given.
    An inherited function has a [length] but no [includes]: calling it
    throws, and the [catch] answers 500. *)
Definition hasPermission (permission : string) (user : option Authorize.principal)
    : outcome unit :=
  match user with
  | None => Send 401 "Authentication required"
  | Some u =>
    let userRole := Authorize.role u in
    match lookup permission with
    | Roles allowedRoles =>
      if Z.of_nat (List.length allowedRoles) =? 0 then Next tt
      else if bool_decide (userRole = "super_admin") || Js.includes allowedRoles userRole
      then Next tt
      else Send 403 (missingPermission permission)
    | Inherited len =>
      if bool_decide (len = Some 0) then Next tt
      else if bool_decide (userRole = "super_admin") then Next tt
      else Send 500 "Permission check failed"
    end
  end.

End Permission.

(** ** middleware/auth.js: the optional gate *)

Module OptionalAuth.
Import Models Config.

(** [optionalAuthenticate] always calls [next()]; the result is the
    [req.user] it leaves behind. *)
Definition optionalAuthenticate (env : Env) (now : Z)
    (authHeader : option Auth.authorization) (db : Db) : option Authorize.principal :=
  match authHeader with
  | None | Some (Auth.OtherScheme _) => None
  | Some (Auth.Bearer t) =>
    match Jwt.verify t (JWT_SECRET env) (AuthController.clock now) with
    | inl _ => None
    | inr decoded =>
      match User_findById db (Jwt.userId decoded) with
      | None => None
      | Some user =>
        if isActive user then
          Some {| Authorize.userId := Jwt.userId decoded;
                  Authorize.email := email user;
                  Authorize.role := role user;
                  Authorize.modules := modules user |}
        else None
      end
    end
  end.

End OptionalAuth.

(** ** middleware/wfpAuth.js: the role and region guards *)

Module WfpGuards.

(** [requireWfpRole(...allowedRoles)] on a request whose user has the given
    role. *)
Definition requireWfpRole (allowedRoles : list string) (userRole : option string)
    : outcome unit :=
  match userRole with
  | None => Send 401 "Authentication required"
  | Some r =>
    if bool_decide (r = "admin") then Next tt
    else if negb (Config.isPrefix "wfp_" r) then
      Send 403 "WFP role required to access this resource"
    else if negb (Js.includes allowedRoles r) then
      Send 403 ("Insufficient permissions. Required roles: " ++ String.concat ", " allowedRoles)
    else Next tt
  end.

(** [req.user] as [canViewRegion] reads it. *)
Record user := {
  role : string;
  assignedRegions : option (list string)
}.

Section Region.
(** [String.prototype.toLowerCase] *)
Variable toLowerCase : string -> string.

Definition canViewRegion (u : option user) (query body : gmap string string)
    : outcome unit :=
  match u with
  | None => Send 401 "Authentication required"
  | Some u =>
    if bool_decide (role u = "admin") || bool_decide (role u = "wfp_admin") then Next tt
    else
      let requestedRegion := WfpAuth.firstTruthy (query !! "region") (body !! "region") in
      match assignedRegions u with
      | Some regions =>
        if Js.truthy requestedRegion && (0 <? Z.of_nat (List.length regions)) then
          let canView :=
            existsb (fun region =>
                       bool_decide (toLowerCase region
                                    = toLowerCase (default "" requestedRegion)))
                    regions in
          if negb canView then
            Send 403 "You are not authorized to view data from this region"
          else Next tt
        else Next tt
      | None => Next tt
      end
  end.

End Region.

End WfpGuards.

(** ** models/User.js: the module method *)

Module UserMethods.
Import Models.

Definition ROLES_ADMIN : string := default "" (Permission.assoc ROLES "ADMIN").

(** [userSchema.methods.canAccessModule] *)
Definition canAccessModule (u : User) (moduleName : string) : bool :=
  if bool_decide (role u = ROLES_ADMIN) then true
  else Js.includes (accessibleModules u) moduleName.

End UserMethods.

(** ** More that holds of the store *)

Module Ledger.
Import Models Config AuthController System.

(** Every token record is a refresh record of an existing user and holds a
    refresh token signed for that user; every stored module list is within
    dube / wfp. *)
Definition ownRefresh (db : Db) (d : TokenDoc) : Prop :=
  type d = refresh /\ (t_userId d < List.length (users db))%nat /\
  exists iat exp k, token d = Jwt.Signed (Jwt.RefreshPayload (t_userId d)) iat exp k.

Record integrity (db : Db) : Prop := {
  int_modules : Forall (fun u => validModules (accessibleModules u) = true) (users db);
  int_tokens : Forall (ownRefresh db) (tokens db)
}.

(** A refresh token whose records all lapse by [deadline]. *)
Definition lapsed (t : Jwt.token) (deadline : Z) (db : Db) : Prop :=
  t ∈ (token <$> tokens db) ∧
  Forall (fun d => token d = t -> expiresAt d <= deadline) (tokens db).

(** What the auth code reads of a stored user besides the password. *)
Definition identity (u : User) : string * string * list string * bool :=
  (email u, role u, accessibleModules u, isActive u).

(** The schema trims and lower-cases an e-mail address wherever it meets
    one, in a document as in a query.  An address written with these
    characters only is left as it is by both. *)
Definition plainChar (c : ascii) : bool :=
  let n := nat_of_ascii c in
  ((97 <=? n) && (n <=? 122) || (48 <=? n) && (n <=? 57))%nat
  || bool_decide (c = "."%char) || bool_decide (c = "_"%char)
  || bool_decide (c = "-"%char) || bool_decide (c = "@"%char).

Definition plainAddress (e : string) : bool := forallb plainChar (list_ascii_of_string e).

(** The record that [saveRefreshToken] writes. *)
Definition issuedRecord (now : Z) (id : nat) (rt : Jwt.token) (ip : string)
    (ua : option string) : TokenDoc :=
  {| t_userId := id; token := rt; type := refresh;
     expiresAt := now + 7 * 24 * 60 * 60 * 1000; used := false;
     ipAddress := ip; userAgent := ua |}.

(** The operations served over HTTP, as opposed to direct model saves. *)
Definition served (o : op) : Prop :=
  match o with
  | SaveUser _ _ => False
  | _ => True
  end.

(** Operations that leave the list of users as long as it was. *)
Definition keepsUsers (o : op) : Prop :=
  match o with
  | Register _ _ _ _ _ _ _ _ | SaveUser _ _ => False
  | _ => True
  end.

End Ledger.

(** ** routes/wfpRoutes.js and the DUBE routes: what each route asks of
    [authorize] *)

Module Routes.

Record route := Route {
  path : string;
  allowedRoles : list string;
  module : string
}.

Definition wfpRoutes : list route :=
  [ Route "/getcategories.php" ["wfp_admin"; "wfp_viewer"] "wfp";
    Route "/registercategory.php" ["wfp_admin"] "wfp";
    Route "/getbeneficiarylist.php" ["wfp_admin"; "wfp_viewer"; "wfp_health_officer"] "wfp";
    Route "/registerbeneficiary.php" ["wfp_admin"; "wfp_health_officer"] "wfp";
    Route "/getvoucherslist.php" ["wfp_admin"; "wfp_viewer"] "wfp";
    Route "/registervoucher.php" ["wfp_admin"] "wfp";
    Route "/getallcycles.php" ["wfp_admin"; "wfp_viewer"] "wfp";
    Route "/registerCycle" ["wfp_admin"] "wfp";
    Route "/getonboardingagentlist.php" ["wfp_admin"; "wfp_viewer"] "wfp";
    Route "/gethealthofficerlist.php" ["wfp_admin"; "wfp_viewer"; "wfp_health_officer"] "wfp" ].

Definition dubeRoutes : list route :=
  [ Route "/international/getmerchantlist.php" ["dube_admin"; "dube_viewer"] "dube";
    Route "/international/getcustomerlist.php" ["dube_admin"; "dube_viewer"] "dube";
    Route "/international/getallinvoices.php" ["dube_admin"; "dube_viewer"] "dube";
    Route "/international/registerproject.php" ["dube_admin"] "dube";
    Route "/international/getprojectlist.php" ["dube_admin"; "dube_viewer"] "dube";
    Route "/international/getsupplierlist.php" ["dube_admin"; "dube_viewer"] "dube";
    Route "/international/registersupplier.php" ["dube_admin"] "dube";
    Route "/international/customerselfregistration.php" ["dube_admin"; "dube_field_agent"] "dube";
    Route "/international/gettotals.php" ["dube_admin"; "dube_viewer"] "dube";
    Route "/gettopuphistory.php" ["dube_admin"; "dube_viewer"] "dube";
    Route "/international/changephonenumber.php" ["dube_admin"] "dube";
    Route "/changename.php" ["dube_admin"] "dube";
    Route "/international/getreceiptlist.php" ["dube_admin"; "dube_viewer"] "dube";
    Route "/international/updatereceiptstatus.php" ["dube_admin"] "dube" ].

(** The role check of a route on a principal. *)
Definition guard (r : route) (u : Authorize.principal) : outcome unit :=
  Authorize.authorize (allowedRoles r) (Some (module r)) (Some u).

(** A route scoped to wfp or dube that lists the admin of the module and,
    beside it, only roles of lower rank. *)
Definition adminTopped (r : route) : Prop :=
  (module r = "wfp" \/ module r = "dube") /\
  (module r ++ "_admin")%string ∈ allowedRoles r /\
  Forall (fun role => role = (module r ++ "_admin")%string \/
                      exists b, Authorize.rank role = Some b /\ b < 80) (allowedRoles r).

End Routes.

(** ** More concrete inputs *)

Module Cases.
Import Models Config AuthController.

Definition viewer : User :=
  {| email := "viewer@wfp.org"; password := Bcrypt "Passw0rd!"; role := "wfp_viewer";
     accessibleModules := []; isActive := true |}.


(** A refresh span of thirty days. *)
Definition longEnv : Env :=
  {| JWT_SECRET := Some "access-secret"; JWT_ACCESS_SECRET := None;
     JWT_REFRESH_SECRET := Some "refresh-secret";
     JWT_ACCESS_EXPIRATION := None; JWT_REFRESH_EXPIRATION := Some 2592000;
     NODE_ENV := Some "production" |}.

Definition fieldOfficer : Authorize.principal :=
  {| Authorize.userId := 9; Authorize.email := "officer@wfp.org";
     Authorize.role := "wfp_field_officer"; Authorize.modules := Some ["wfp"] |}.

Definition lower (s : string) : string :=
  if bool_decide (s = "Afar") then "afar" else s.

(** A WFP administrator provisioned directly through the model. *)
Definition wfpManagerDraft : UserDraft :=
  {| d_email := "manager@wfp.org"; d_password := "Passw0rd!";
     d_role := Some "wfp_admin"; d_accessibleModules := ["wfp"];
     d_isActive := None |}.

Definition wfpManager : User :=
  {| email := "manager@wfp.org"; password := Bcrypt "Passw0rd!"; role := "wfp_admin";
     accessibleModules := ["wfp"]; isActive := true |}.

Definition provisioned : Db := System.User_save None wfpManagerDraft emptyDb.

End Cases.

(** * Properties of the decision function *)

Module AuthorizeFacts.
Import Authorize.

Lemma listOk_spec allowedRoles r :
  listOk allowedRoles r = true <-> allowedRoles = [] \/ r ∈ allowedRoles.
Proof.
  unfold listOk, Js.includes. destruct allowedRoles as [|a l]; simpl.
  - split; auto.
  - rewrite negb_true_iff, negb_false_iff, bool_decide_eq_true.
    split; [auto | intros [H|H]; [discriminate | exact H]].
Qed.

(** [authorize] as a composition of its successive checks. *)
Lemma authorize_checks allowedRoles module u :
  authorize allowedRoles module (Some u) =
    if bool_decide (role u = "super_admin") then Next tt
    else if negb (moduleOk module u) then Send 403 (moduleDenied (default "" module))
    else if negb (listOk allowedRoles (role u)) then
      Send 403 "Access denied. Insufficient permissions."
    else if Js.truthy module && bool_decide (role u = "admin") then Next tt
    else if Js.lt (Js.getProperty roleHierarchy (role u)) (Js.Math_max (levels allowedRoles))
    then Send 403 "Access denied. Higher privileges required."
    else Next tt.
Proof.
  unfold authorize, moduleOk, listOk, levels.
  rewrite !negb_involutive. reflexivity.
Qed.

Lemma lt_NegInfinity v : Js.lt v Js.NegInfinity = false.
Proof. destruct v; reflexivity. Qed.

Lemma getProperty_rank r n : rank r = Some n -> Js.getProperty roleHierarchy r = Js.Number n.
Proof. unfold rank, Js.getProperty. intros ->. reflexivity. Qed.

(** A role that passes the rank comparison lets every higher rank pass. *)
Lemma lt_rank_mono a b m :
  b < a -> Js.lt (Js.Number b) m = false -> Js.lt (Js.Number a) m = false.
Proof.
  unfold Js.lt. intros Hab. destruct m as [|n|]; simpl; try reflexivity.
  intros Hb%Z.ltb_ge. apply Z.ltb_ge. lia.
Qed.

Lemma rank_cases r n :
  rank r = Some n ->
  (r = "super_admin" /\ n = 100) \/ (r = "admin" /\ n = 90) \/
  (r <> "super_admin" /\ r <> "admin" /\ n <= 80).
Proof.
  unfold rank, roleHierarchy. simpl.
  repeat (case_bool_decide; [intros [= <-]; subst r;
            first [ left; split; reflexivity
                  | right; left; split; reflexivity
                  | right; right; repeat split; (discriminate || lia) ] |]).
  discriminate.
Qed.

(** The level a listed role contributes is NaN or at most 80 unless the
    role is one of the two global ones. *)
Lemma level_bound r :
  r <> "super_admin" -> r <> "admin" ->
  match Js.toNumber (Js.orZero (Js.getProperty roleHierarchy r)) with
  | Js.Finite n => n <= 80
  | Js.NaN => True
  | Js.NegInfinity => False
  end.
Proof.
  intros Hs Ha. unfold Js.getProperty.
  destruct (Js.ownProperty roleHierarchy r) as [n|] eqn:Hr.
  - destruct (rank_cases r n Hr) as [[? _]|[[? _]|(_ & _ & Hn)]]; try contradiction.
    destruct n; simpl; lia.
  - case_bool_decide; simpl; [exact I | lia].
Qed.

Lemma Math_max_bound allowedRoles :
  Forall (fun r => r <> "super_admin" /\ r <> "admin") allowedRoles ->
  match Js.Math_max (levels allowedRoles) with
  | Js.Finite n => n <= 80
  | _ => True
  end.
Proof.
  induction 1 as [|r l [Hs Ha] _ IH]; [exact I|].
  unfold Js.Math_max, levels in *. rewrite !fmap_cons. simpl.
  pose proof (level_bound r Hs Ha) as Hr.
  destruct (Js.toNumber _) as [|x|]; [contradiction| |exact I].
  match type of IH with match ?m with _ => _ end => destruct m as [|y|] end;
    simpl; first [exact I | lia].
Qed.

Lemma rank_le_100 r n : rank r = Some n -> n <= 100.
Proof.
  intros H. destruct (rank_cases r n H) as [[_ ->]|[[_ ->]|(_ & _ & Hn)]]; lia.
Qed.

Lemma level_own r n :
  rank r = Some n -> Js.toNumber (Js.orZero (Js.getProperty roleHierarchy r)) = Js.Finite n.
Proof. intros H. rewrite (getProperty_rank _ _ H). by destruct n. Qed.

Lemma level_finite r :
  r ∉ Js.objectPrototypeKeys ->
  exists n, Js.toNumber (Js.orZero (Js.getProperty roleHierarchy r)) = Js.Finite n.
Proof.
  intros Hr. unfold Js.getProperty. destruct (Js.ownProperty roleHierarchy r) as [n|].
  - exists n. by destruct n.
  - rewrite (bool_decide_eq_false_2 _ Hr). by exists 0.
Qed.

(** Without inherited names in the list, the required level is a number
    at least as large as the rank of every listed role. *)
Lemma Math_max_ge allowedRoles A a :
  (forall r, r ∈ allowedRoles -> r ∉ Js.objectPrototypeKeys) ->
  A ∈ allowedRoles -> rank A = Some a ->
  exists m, Js.Math_max (levels allowedRoles) = Js.Finite m /\ a <= m.
Proof.
  unfold Js.Math_max, levels.
  induction allowedRoles as [|r l IH]; intros Hown HA Hrank.
  - by apply elem_of_nil in HA.
  - rewrite !fmap_cons. simpl.
    destruct (level_finite r) as [x Hx]; [apply Hown; left|]. rewrite Hx.
    assert (forall r', r' ∈ l -> r' ∉ Js.objectPrototypeKeys) as Hown'
      by (intros r' Hr'; apply Hown; by right).
    assert (exists y, foldr Js.max2 Js.NegInfinity
                        (Js.toNumber <$> ((fun role => Js.orZero (Js.getProperty roleHierarchy role)) <$> l))
                      = Js.Finite y \/
                      foldr Js.max2 Js.NegInfinity
                        (Js.toNumber <$> ((fun role => Js.orZero (Js.getProperty roleHierarchy role)) <$> l))
                      = Js.NegInfinity) as [y [Hy|Hy]].
    { clear -Hown'. induction l as [|r' l' IH']; [exists 0; by right|].
      rewrite !fmap_cons. simpl.
      destruct (level_finite r') as [x' ->]; [apply Hown'; left|].
      destruct IH' as [y' [-> | ->]]; [intros; apply Hown'; by right| |]; simpl; eauto. }
    + rewrite Hy. simpl. apply elem_of_cons in HA as [-> | HA].
      * rewrite (level_own _ _ Hrank) in Hx. injection Hx as <-.
        eexists. split; [reflexivity | lia].
      * destruct (IH Hown' HA Hrank) as (m & Hm & Hle). rewrite Hm in Hy.
        injection Hy as <-. eexists. split; [reflexivity | lia].
    + rewrite Hy. simpl. apply elem_of_cons in HA as [-> | HA].
      * rewrite (level_own _ _ Hrank) in Hx. injection Hx as <-.
        eexists. split; [reflexivity | lia].
      * destruct (IH Hown' HA Hrank) as (m & Hm & _). congruence.
Qed.

(** C1. Module isolation comes first: a principal that is not super_admin
    and whose module set lacks the module the route is scoped to is
    answered 403 with the module message, whatever the role list and
    whatever the ranks. *)
Theorem module_isolation_first allowedRoles (m : string) (u : principal) :
  role u <> "super_admin" ->
  m <> "" ->
  m ∉ default [] (modules u) ->
  authorize allowedRoles (Some m) (Some u) = Send 403 (moduleDenied m).
Proof.
  intros Hrole Hm Hnot. unfold authorize.
  rewrite bool_decide_eq_false_2 by exact Hrole.
  unfold Js.truthy, Js.includes. simpl.
  rewrite !bool_decide_eq_false_2 by assumption.
  reflexivity.
Qed.

Lemma module_isolation_first_witness :
  authorize ["dube_viewer"] (Some "dube") (Some Scenario.wfpAdmin)
  = Send 403 "Access denied. You don't have access to DUBE module.".
Proof.
  apply (module_isolation_first ["dube_viewer"] "dube" Scenario.wfpAdmin).
  - discriminate.
  - discriminate.
  - apply (bool_decide_eq_false_1 _). reflexivity.
Defined.

(** C9. With an empty role list every authenticated principal passes, as
    soon as the module check does: the list check is skipped and nothing
    is below the maximum of no level at all. *)
Theorem empty_role_list_admits_all (module : option string) (u : principal) :
  Js.truthy module = false \/ default "" module ∈ default [] (modules u) ->
  authorize [] module (Some u) = Next tt.
Proof.
  intros Hmod. rewrite authorize_checks.
  case_bool_decide; [reflexivity|].
  assert (moduleOk module u = true) as ->.
  { unfold moduleOk, Js.includes. destruct Hmod as [-> | Hin]; [reflexivity|].
    rewrite (bool_decide_eq_true_2 _ Hin). simpl. by rewrite andb_false_r. }
  simpl. destruct (Js.truthy module && _); [reflexivity|].
  unfold levels, Js.Math_max. simpl. by rewrite lt_NegInfinity.
Qed.

Lemma empty_role_list_admits_all_witness :
  authorize [] None
    (Some {| userId := 3; email := "u@x.org"; role := "user"; modules := None |})
  = Next tt.
Proof. apply empty_role_list_admits_all. left. reflexivity. Defined.

(** C4, as stated, fails: wfp_admin with the wfp module, on a wfp route
    whose role list names only wfp_viewer, is refused by the role-list
    check. *)
Lemma unlisted_module_admin_denied :
  role Scenario.wfpAdmin = ("wfp" ++ "_admin")%string /\
  "wfp" ∈ default [] (modules Scenario.wfpAdmin) /\
  authorize ["wfp_viewer"] (Some "wfp") (Some Scenario.wfpAdmin)
  = Send 403 "Access denied. Insufficient permissions.".
Proof.
  split; [reflexivity|]. split; [|reflexivity].
  apply (bool_decide_eq_true_1 _). reflexivity.
Qed.

(** C4, amended. On a route scoped to wfp or dube with a non-empty role
    list, the admin of that module who holds the module is refused with
    "Insufficient permissions" when its role is not listed; it is let
    through when its role is listed and neither admin nor super_admin is
    listed beside it. *)
Theorem module_admin_needs_listing allowedRoles (m : string) (u : principal) :
  m = "wfp" \/ m = "dube" ->
  role u = (m ++ "_admin")%string ->
  m ∈ default [] (modules u) ->
  allowedRoles <> [] ->
  (role u ∉ allowedRoles ->
     authorize allowedRoles (Some m) (Some u)
     = Send 403 "Access denied. Insufficient permissions.") /\
  (role u ∈ allowedRoles -> "admin" ∉ allowedRoles -> "super_admin" ∉ allowedRoles ->
     authorize allowedRoles (Some m) (Some u) = Next tt).
Proof.
  intros Hm Hrole Hin Hne.
  assert (rank (role u) = Some 80) as Hrank
    by (rewrite Hrole; destruct Hm as [-> | ->]; reflexivity).
  assert (role u <> "super_admin" /\ role u <> "admin") as [Hs Ha]
    by (rewrite Hrole; destruct Hm as [-> | ->]; split; discriminate).
  assert (moduleOk (Some m) u = true) as Hmod.
  { unfold moduleOk, Js.includes. simpl.
    rewrite (bool_decide_eq_true_2 _ Hin). simpl. by rewrite andb_false_r. }
  rewrite authorize_checks, Hmod.
  rewrite (bool_decide_eq_false_2 _ Hs), (bool_decide_eq_false_2 _ Ha), andb_false_r.
  simpl. split.
  - intros Hnot. destruct (listOk allowedRoles (role u)) eqn:Hl; [|reflexivity].
    apply listOk_spec in Hl as [? | ?]; contradiction.
  - intros Hlisted Hnoadmin Hnosuper.
    assert (listOk allowedRoles (role u) = true) as -> by (apply listOk_spec; auto).
    simpl. rewrite (getProperty_rank _ _ Hrank).
    assert (Forall (fun r => r <> "super_admin" /\ r <> "admin") allowedRoles) as Hall.
    { apply Forall_forall. intros r Hr. split; intros ->; contradiction. }
    apply Math_max_bound in Hall. unfold Js.lt.
    destruct (Js.Math_max (levels allowedRoles)) as [|n|]; simpl; try reflexivity.
    assert ((80 <? n) = false) as -> by (apply Z.ltb_ge; lia). reflexivity.
Qed.

Lemma module_admin_needs_listing_witness :
  authorize ["wfp_viewer"] (Some "wfp") (Some Scenario.wfpAdmin)
  = Send 403 "Access denied. Insufficient permissions." /\
  authorize ["wfp_admin"; "wfp_viewer"] (Some "wfp") (Some Scenario.wfpAdmin) = Next tt.
Proof.
  split.
  - refine (proj1 (module_admin_needs_listing ["wfp_viewer"] "wfp" Scenario.wfpAdmin
                     _ _ _ _) _).
    + left. reflexivity.
    + reflexivity.
    + apply (bool_decide_eq_true_1 _). reflexivity.
    + discriminate.
    + apply (bool_decide_eq_false_1 _). reflexivity.
  - refine (proj2 (module_admin_needs_listing ["wfp_admin"; "wfp_viewer"] "wfp"
                     Scenario.wfpAdmin _ _ _ _) _ _ _).
    + left. reflexivity.
    + reflexivity.
    + apply (bool_decide_eq_true_1 _). reflexivity.
    + discriminate.
    + apply (bool_decide_eq_true_1 _). reflexivity.
    + apply (bool_decide_eq_false_1 _). reflexivity.
    + apply (bool_decide_eq_false_1 _). reflexivity.
Defined.




(** Two roles of the same rank, both listed: both pass.  With a third,
    higher role on the list neither does. *)
Example equal_ranks_share_a_route :
  authorize ["dube_admin"; "wfp_admin"] None (Some (withRole Scenario.wfpViewer "wfp_admin"))
  = Next tt /\
  authorize ["dube_admin"; "wfp_admin"] None (Some (withRole Scenario.wfpViewer "dube_admin"))
  = Next tt /\
  authorize ["dube_admin"; "wfp_admin"; "admin"] None
    (Some (withRole Scenario.wfpViewer "wfp_admin"))
  = Send 403 "Access denied. Higher privileges required.".
Proof. repeat split. Qed.

End AuthorizeFacts.

(** * The cycle guard *)

Module WfpAuthFacts.
Import WfpAuth.







Import Scenario.


(** An officer asking for a cycle that was not assigned is refused. *)
Example officer_refused :
  canManageCycle "cycleId"
    {| req_user := Some officer; params := ∅; body := {[ "cycleId" := Str "c9" ]};
       query := ∅ |}
  = Send 403 "You are not authorized to manage this cycle".
Proof. reflexivity. Qed.

(** The route parameters win over the body, and the body over the query
    string. *)
Example params_before_body :
  canManageCycle "cycleId"
    {| req_user := Some officer; params := {[ "cycleId" := Str "c9" ]};
       body := {[ "cycleId" := Str "c1" ]}; query := {[ "cycleId" := Str "c2" ]} |}
  = Send 403 "You are not authorized to manage this cycle".
Proof. reflexivity. Qed.

(** A guard built on a name of [Object.prototype] finds a value on every
    request: the officer is refused on an empty one. *)
Example inherited_name_is_an_id :
  canManageCycle "constructor"
    {| req_user := Some officer; params := ∅; body := ∅; query := ∅ |}
  = Send 403 "You are not authorized to manage this cycle".
Proof. reflexivity. Qed.

(** A number in the body is compared by its decimal text. *)
Example number_in_body :
  canManageCycle "cycleId"
    {| req_user := Some {| role := "wfp_health_officer"; assignedCycles := Some ["7"] |};
       params := ∅; body := {[ "cycleId" := Other (Some "7") ]}; query := ∅ |}
  = Next tt.
Proof. reflexivity. Qed.

(** A truthy value whose [toString()] throws is no identifier: the
    comparison throws on the first assigned cycle and the guard answers
    500 to whoever is not admin and has a cycle assigned; with no cycle
    assigned the comparison is never made. *)
Lemma unprintable_id (p : string) (u : user) (ps bd qs : gmap string value)
    (cycle : string) (cycles : list string) :
  role u <> "admin" ->
  cycleIdOf p {| req_user := Some u; params := ps; body := bd; query := qs |} = Other None ->
  (assignedCycles u = Some (cycle :: cycles) ->
   canManageCycle p {| req_user := Some u; params := ps; body := bd; query := qs |}
   = Send 500 "Internal server error during cycle check") /\
  (assignedCycles u = None \/ assignedCycles u = Some [] ->
   canManageCycle p {| req_user := Some u; params := ps; body := bd; query := qs |}
   = if bool_decide (role u = "wfp_admin") then Next tt
     else Send 403 "You are not authorized to manage this cycle").
Proof.
  intros Hadmin Hid. unfold canManageCycle. cbn [req_user].
  rewrite (bool_decide_eq_false_2 _ Hadmin), Hid. simpl. split.
  - by intros ->.
  - intros [-> | ->]; simpl; by case_bool_decide.
Qed.

End WfpAuthFacts.

(** * Signing secrets and token kinds *)

Module TokenFacts.
Import Models Config AuthController.

Lemma sign_inv body secret span clk t :
  Jwt.sign body secret span clk = Some t ->
  exists k, secret = Some k /\ k <> "" /\ t = Jwt.Signed body clk (clk + span) k.
Proof.
  unfold Jwt.sign. destruct secret as [k|]; [|discriminate].
  case_bool_decide; [discriminate|]. intros [= <-]. eauto.
Qed.

Lemma generateTokens_inv env now id user a r :
  generateTokens env now id user = Some (a, r) ->
  exists ka kr,
    JWT_SECRET env = Some ka /\ ka <> "" /\
    JWT_REFRESH_SECRET env = Some kr /\ kr <> "" /\
    a = Jwt.Signed (Jwt.AccessPayload id (email user) (role user) (modules user))
          (clock now) (clock now + default 900 (JWT_ACCESS_EXPIRATION env)) ka /\
    r = Jwt.Signed (Jwt.RefreshPayload id)
          (clock now) (clock now + default 604800 (JWT_REFRESH_EXPIRATION env)) kr.
Proof.
  unfold generateTokens.
  destruct (Jwt.sign (Jwt.AccessPayload _ _ _ _) _ _ _) as [a'|] eqn:Ha; [|discriminate].
  destruct (Jwt.sign (Jwt.RefreshPayload _) _ _ _) as [r'|] eqn:Hr; [|discriminate].
  intros [= <- <-].
  apply sign_inv in Ha as (ka & ? & ? & ?). apply sign_inv in Hr as (kr & ? & ? & ?).
  exists ka, kr. auto 10.
Qed.





End TokenFacts.

(** * What every reachable store satisfies *)

Module StoreFacts.
Import Models Config AuthController System.

Lemma tokens_alter_markUsed i (l : list TokenDoc) :
  token <$> alter markUsed i l = token <$> l.
Proof.
  rewrite (list_fmap_alter token markUsed (fun t => t)).
  - apply list_alter_id. reflexivity.
  - apply Forall_forall. reflexivity.
Qed.

Lemma tokens_updateMany id (l : list TokenDoc) :
  token <$> ((fun d => if bool_decide (t_userId d = id /\ type d = refresh /\ used d = false)
                       then markUsed d else d) <$> l) = token <$> l.
Proof.
  rewrite <- list_fmap_compose. apply list_fmap_ext. intros _ d _. simpl.
  by case_bool_decide.
Qed.

Lemma generateTokens_signed env now id user a r :
  generateTokens env now id user = Some (a, r) -> Jwt.falsy (Some r) = false.
Proof.
  intros H. apply TokenFacts.generateTokens_inv in H as (? & ? & _ & _ & _ & _ & _ & ->).
  reflexivity.
Qed.

Lemma validate_role d u : validate d = Some u -> role u ∈ Object_values ROLES.
Proof.
  unfold validate, validRole, Js.includes.
  destruct (bool_decide _) eqn:Hr; simpl; [|discriminate].
  destruct (validModules _ && validPassword _); simpl; [|discriminate].
  intros [= <-]. simpl. by apply bool_decide_eq_true in Hr.
Qed.

Section Preservation.
Variable db : Db.
Hypothesis Hinv : invariant db.

Lemma invariant_save_used i : invariant (tokenDoc_save_used db i).
Proof.
  destruct Hinv as [Hr Hu Hs]. split; simpl.
  - exact Hr.
  - by rewrite tokens_alter_markUsed.
  - apply Forall_alter; [exact Hs | auto].
Qed.

Lemma invariant_updateMany id : invariant (Token_updateMany_used id db).
Proof.
  destruct Hinv as [Hr Hu Hs]. split; simpl.
  - exact Hr.
  - by rewrite tokens_updateMany.
  - apply Forall_fmap. eapply Forall_impl; [exact Hs|].
    intros d Hd. simpl. by case_bool_decide.
Qed.

Lemma invariant_create d db' :
  Jwt.falsy (Some (token d)) = false ->
  Token_create db d = Some db' -> invariant db'.
Proof.
  destruct Hinv as [Hr Hu Hs]. unfold Token_create.
  case_bool_decide as Hin; [discriminate|]. intros Hd [= <-]. split; simpl.
  - exact Hr.
  - rewrite fmap_app. apply NoDup_app. split; [exact Hu|]. split.
    + intros t Ht Ht'. simpl in Ht'. apply list_elem_of_singleton in Ht'. by subst t.
    + simpl. apply NoDup_singleton.
  - apply Forall_app. split; [exact Hs|]. by constructor.
Qed.

Lemma invariant_withUsers us :
  Forall (fun u => role u ∈ Object_values ROLES) us -> invariant (withUsers db us).
Proof. destruct Hinv as [Hr Hu Hs]. intros Hus. by split. Qed.

End Preservation.

Lemma invariant_saveRefreshToken env now now' id user a r ip ua db db' :
  invariant db ->
  generateTokens env now id user = Some (a, r) ->
  saveRefreshToken now' id r ip ua db = Some db' -> invariant db'.
Proof.
  intros Hinv Hgen Hsave. eapply invariant_create; [exact Hinv | | exact Hsave].
  simpl. eapply generateTokens_signed, Hgen.
Qed.

Create HintDb store.
#[local] Hint Resolve invariant_save_used invariant_updateMany invariant_withUsers
  invariant_saveRefreshToken : store.

Lemma invariant_refreshToken env now rt ip ua db :
  invariant db -> invariant (snd (refreshToken env now rt ip ua db)).
Proof.
  intros Hinv. unfold refreshToken.
  repeat case_match; simpl; eauto with store.
Qed.

Lemma invariant_login env now invalid e pw ip ua db :
  invariant db -> invariant (snd (login env now invalid e pw ip ua db)).
Proof.
  intros Hinv. unfold login.
  repeat case_match; simpl; eauto with store.
Qed.

Lemma invariant_register env now invalid e pw r ip ua db :
  invariant db -> invariant (snd (register env now invalid e pw r ip ua db)).
Proof.
  intros Hinv. unfold register.
  assert (forall u, validate {| d_email := e; d_password := pw;
                                d_role := Some (default "user" r);
                                d_accessibleModules := []; d_isActive := None |} = Some u ->
                    invariant (withUsers db (users db ++ [u])%list)) as Hadd.
  { intros u Hu. apply invariant_withUsers; [exact Hinv|].
    apply Forall_app. split; [apply Hinv|].
    constructor; [|constructor]. eapply validate_role, Hu. }
  repeat case_match; simpl; eauto with store.
Qed.

Lemma invariant_logout rt db : invariant db -> invariant (snd (logout rt db)).
Proof.
  intros Hinv. unfold logout. repeat case_match; simpl; eauto with store.
Qed.

Lemma invariant_changePassword id cur new db :
  invariant db -> invariant (snd (changePassword id cur new db)).
Proof.
  intros Hinv. unfold changePassword, User_findById.
  destruct (users db !! id) as [user|] eqn:Hu; simpl; [|exact Hinv].
  repeat case_match; simpl; try exact Hinv.
  apply invariant_updateMany, invariant_withUsers; [exact Hinv|].
  apply Forall_insert; [apply Hinv|]. simpl.
  eapply (Forall_lookup_1 _ _ _ _ (inv_roles _ Hinv) Hu).
Qed.

Lemma invariant_User_save id d db : invariant db -> invariant (User_save id d db).
Proof.
  intros Hinv. unfold User_save.
  destruct (validate d) as [u|] eqn:Hu; [|exact Hinv].
  apply validate_role in Hu.
  destruct id as [i|]; apply invariant_withUsers; try exact Hinv.
  - apply Forall_insert; [apply Hinv | exact Hu].
  - apply Forall_app. split; [apply Hinv|]. constructor; [exact Hu | constructor].
Qed.

Lemma invariant_apply o db : invariant db -> invariant (apply o db).
Proof.
  destruct o; simpl;
    auto using invariant_refreshToken, invariant_login, invariant_register,
      invariant_logout, invariant_changePassword, invariant_User_save.
Qed.

Lemma invariant_empty : invariant emptyDb.
Proof. split; simpl; constructor. Qed.

(** Reachable stores satisfy the invariant. *)
Lemma reachable_invariant db : reachable db -> invariant db.
Proof. induction 1; [apply invariant_empty | by apply invariant_apply]. Qed.

Lemma reachable_applyAll os db : reachable db -> reachable (applyAll os db).
Proof.
  revert db. induction os as [|o os IH]; intros db Hdb; [exact Hdb|].
  apply IH. by constructor.
Qed.

End StoreFacts.

(** * The refresh exchange *)

Module RefreshFacts.
Import Models Config AuthController System StoreFacts.

(** Under the unique index, two records of one token string are the same
    record. *)
Lemma same_token_same_record (l : list TokenDoc) i j d d' :
  NoDup (token <$> l) ->
  l !! i = Some d -> l !! j = Some d' -> token d = token d' -> i = j.
Proof.
  intros Hnd Hi Hj Heq.
  apply (NoDup_lookup (token <$> l) i j (token d) Hnd).
  - by rewrite list_lookup_fmap, Hi.
  - by rewrite list_lookup_fmap, Hj, Heq.
Qed.

Lemma used_record_spent db d :
  invariant db -> d ∈ tokens db -> used d = true -> spent (token d) db.
Proof.
  intros Hinv Hd Hused. split.
  - by apply list_elem_of_fmap_2.
  - apply Forall_forall. intros d' Hd' Heq.
    apply list_elem_of_lookup in Hd as [i Hi]. apply list_elem_of_lookup in Hd' as [j Hj].
    assert (j = i) as -> by (eapply same_token_same_record; eauto using inv_unique).
    congruence.
Qed.

Section Spent.
Variables (t : Jwt.token) (db : Db).
Hypothesis Hspent : spent t db.

Lemma spent_save_used i : spent t (tokenDoc_save_used db i).
Proof.
  destruct Hspent as [Hin Hall]. split; simpl.
  - by rewrite tokens_alter_markUsed.
  - apply Forall_alter; [exact Hall | reflexivity].
Qed.

Lemma spent_updateMany id : spent t (Token_updateMany_used id db).
Proof.
  destruct Hspent as [Hin Hall]. split; simpl.
  - by rewrite tokens_updateMany.
  - apply Forall_fmap. eapply Forall_impl; [exact Hall|].
    intros d Hd. simpl. by case_bool_decide.
Qed.

Lemma spent_create d db' : Token_create db d = Some db' -> spent t db'.
Proof.
  destruct Hspent as [Hin Hall]. unfold Token_create.
  case_bool_decide as Hnew; [discriminate|]. intros [= <-]. split; simpl.
  - rewrite fmap_app. apply elem_of_app. by left.
  - apply Forall_app. split; [exact Hall|].
    constructor; [|constructor]. intros <-. contradiction.
Qed.

Lemma spent_withUsers us : spent t (withUsers db us).
Proof. exact Hspent. Qed.

End Spent.

#[local] Hint Resolve spent_save_used spent_updateMany spent_withUsers : store.
#[local] Hint Extern 2 (spent _ _) =>
  match goal with
  | H : saveRefreshToken _ _ _ _ _ _ = Some _ |- _ =>
    unfold saveRefreshToken in H; eapply spent_create; [|exact H]
  end : store.

(** No operation makes a spent token exchangeable again. *)
Lemma spent_apply t o db : spent t db -> spent t (apply o db).
Proof.
  intros Hs.
  destruct o; simpl;
    unfold register, login, refreshToken, logout, changePassword, User_save;
    repeat case_match; simpl; eauto 6 with store.
Qed.

Lemma spent_applyAll t os db : spent t db -> spent t (applyAll os db).
Proof.
  revert db. induction os as [|o os IH]; intros db Hs; [exact Hs|].
  apply IH. by apply spent_apply.
Qed.

(** A successful exchange hands out a pair whose refresh token is a new
    one, and spends the token it was given. *)
Lemma exchange_spends env now t ip ua db r db' :
  invariant db ->
  refreshToken env now (Some t) ip ua db = (r, db') ->
  status r = 200 ->
  (exists a r', data r = Some (a, r') /\ r' <> t) /\ spent t db'.
Proof.
  intros Hinv. unfold refreshToken.
  destruct (Jwt.falsy (Some t)); [by intros [= <- <-]|].
  destruct (Jwt.verify _ _ _) as [?|decoded]; [by intros [= <- <-]|].
  destruct (Token_findOne db t now) as [[i tokenDoc]|] eqn:Hfind; [|by intros [= <- <-]].
  destruct (User_findById _ _) as [user|]; [|by intros [= <- <-]].
  destruct (generateTokens _ _ _ _) as [[a r']|]; [|by intros [= <- <-]].
  destruct (saveRefreshToken _ _ _ _ _ _) as [db2|] eqn:Hsave; [|by intros [= <- <-]].
  intros [= <- <-] _.
  apply list_find_Some in Hfind as (Hi & (Htok & _) & _).
  unfold saveRefreshToken in Hsave.
  assert (spent t (tokenDoc_save_used db i)) as Hspent.
  { split; simpl.
    - rewrite tokens_alter_markUsed. rewrite <- Htok.
      apply list_elem_of_fmap_2. by eapply list_elem_of_lookup_2.
    - apply Forall_lookup. intros j d Hj Hd.
      destruct (decide (i = j)) as [<-|Hne].
      + rewrite list_lookup_alter_eq, Hi in Hj. by injection Hj as <-.
      + rewrite list_lookup_alter_ne in Hj by exact Hne.
        destruct Hne. eapply same_token_same_record; eauto using inv_unique.
        congruence. }
  split; [|by eapply spent_create].
  exists a, r'. split; [reflexivity|]. intros ->.
  unfold Token_create in Hsave. simpl in Hsave.
  rewrite bool_decide_eq_true_2 in Hsave by apply Hspent. discriminate.
Qed.

(** A spent token is answered 401 and the store is left as it was. *)
Lemma spent_rejected env now t ip ua db :
  invariant db -> spent t db ->
  exists msg, refreshToken env now (Some t) ip ua db = (Reply 401 msg None, db).
Proof.
  intros Hinv [Hin Hall]. unfold refreshToken.
  assert (Jwt.falsy (Some t) = false) as ->.
  { apply list_elem_of_fmap in Hin as (d & -> & Hd).
    by apply (proj1 (Forall_forall _ _) (inv_signed _ Hinv)). }
  destruct (Jwt.verify _ _ _) as [?|decoded]; [eauto|].
  assert (Token_findOne db t now = None) as ->; [|eauto].
  apply list_find_None. eapply Forall_impl; [exact Hall|].
  intros d Hd (Htok & _ & Hunused & _). rewrite Hd in Hunused by exact Htok. discriminate.
Qed.

(** The handler run alone is the handler run step by step. *)
Lemma runAlone_refreshToken env now rt ip ua db :
  runAlone env now db (Entered rt ip ua)
  = (snd (refreshToken env now rt ip ua db),
     Replied (fst (refreshToken env now rt ip ua db))).
Proof.
  unfold runAlone, refreshToken, step.
  destruct rt as [t|]; [|reflexivity].
  destruct (Jwt.falsy (Some t)); [reflexivity|].
  destruct (Jwt.verify _ _ _) as [?|decoded]; [reflexivity|].
  destruct (Token_findOne _ _ _) as [[i d]|]; [|reflexivity].
  destruct (User_findById _ _) as [u|]; [|reflexivity].
  destruct (generateTokens _ _ _ _) as [[a r]|]; [|reflexivity].
  destruct (saveRefreshToken _ _ _ _ _ _); reflexivity.
Qed.

End RefreshFacts.

(** * Replay of refresh tokens *)

Module ReplayFacts.
Import Models Config AuthController System StoreFacts RefreshFacts Scenario.

Lemma db0_reachable : reachable db0.
Proof.
  apply (reachable_apply emptyDb
           (Register env t0 false "viewer@wfp.org" "Passw0rd!" (Some "wfp_viewer")
                     "10.0.0.1" None)), reachable_empty.
Qed.

Lemma db1_reachable : reachable db1.
Proof.
  apply (reachable_apply db0
           (Login env (t0 + 5000) false "viewer@wfp.org" "Passw0rd!" "10.0.0.2" None)),
    db0_reachable.
Qed.

Lemma db2_reachable : reachable db2.
Proof.
  apply (reachable_apply db1 (RefreshToken env (t0 + 60000) refresh0 "10.0.0.1" None)),
    db1_reachable.
Qed.

(** C2, as stated, fails for requests in flight together: two requests
    present the same refresh token, each finds the record unused before
    the other has saved it, so both are answered 200, each with a token
    pair of its own, and both new refresh tokens are on record, unused. *)
Lemma concurrent_exchange_succeeds_twice :
  refresh0 = Some (Jwt.Signed (Jwt.RefreshPayload 0) 1700000000 1700604800 "refresh-secret") /\
  exists dbf a1 r1 a2 r2,
    raced = (dbf,
             Replied (Reply 200 "Token refreshed successfully" (Some (a1, r1))),
             Replied (Reply 200 "Token refreshed successfully" (Some (a2, r2)))) /\
    r1 <> r2 /\
    (exists d1, tokens dbf !! 1%nat = Some d1 /\ token d1 = r1 /\ used d1 = false) /\
    (exists d2, tokens dbf !! 2%nat = Some d2 /\ token d2 = r2 /\ used d2 = false).
Proof.
  split; [reflexivity|].
  eexists _, _, _, _, _. split; [vm_compute; reflexivity|].
  split; [discriminate|].
  split; eexists; (split; [reflexivity|]); split; reflexivity.
Qed.

(** C2, amended. With requests handled one after the other, a refresh
    token is exchanged at most once: an exchange answered 200 returns a
    pair with a new refresh token and leaves the record of the old one
    marked used, and every later exchange of that token, whatever was
    done to the store in between, is answered 401 and changes nothing. *)
Theorem sequential_exchange_once env now t ip ua db r db' :
  reachable db ->
  refreshToken env now (Some t) ip ua db = (r, db') ->
  status r = 200 ->
  (exists a r', data r = Some (a, r') /\ r' <> t) /\
  spent t db' /\
  forall os env' now' ip' ua',
  exists msg,
    refreshToken env' now' (Some t) ip' ua' (applyAll os db')
    = (Reply 401 msg None, applyAll os db').
Proof.
  intros Hreach Hex Hok.
  destruct (exchange_spends env now t ip ua db r db'
              (reachable_invariant _ Hreach) Hex Hok) as [Hpair Hspent].
  split; [exact Hpair|]. split; [exact Hspent|].
  intros os env' now' ip' ua'. apply spent_rejected.
  - apply reachable_invariant, reachable_applyAll.
    assert (db' = apply (RefreshToken env now (Some t) ip ua) db) as ->
      by (unfold apply; by rewrite Hex).
    by constructor.
  - by apply spent_applyAll.
Qed.

Lemma sequential_exchange_once_witness :
  exists msg,
    refreshToken env (t0 + 61005)
      (Some (Jwt.Signed (Jwt.RefreshPayload 0) 1700000000 1700604800 "refresh-secret"))
      "10.0.0.9" None
      (applyAll [Login env (t0 + 60500) false "viewer@wfp.org" "Passw0rd!" "10.0.0.2" None]
         (snd (refreshToken env (t0 + 60000) refresh0 "10.0.0.1" None db0)))
    = (Reply 401 msg None,
       applyAll [Login env (t0 + 60500) false "viewer@wfp.org" "Passw0rd!" "10.0.0.2" None]
         (snd (refreshToken env (t0 + 60000) refresh0 "10.0.0.1" None db0))).
Proof.
  refine (proj2 (proj2
    (sequential_exchange_once env (t0 + 60000)
       (Jwt.Signed (Jwt.RefreshPayload 0) 1700000000 1700604800 "refresh-secret")
       "10.0.0.1" None db0
       (fst (refreshToken env (t0 + 60000) refresh0 "10.0.0.1" None db0))
       (snd (refreshToken env (t0 + 60000) refresh0 "10.0.0.1" None db0))
       db0_reachable _ _))
    [Login env (t0 + 60500) false "viewer@wfp.org" "Passw0rd!" "10.0.0.2" None]
    env (t0 + 61005) "10.0.0.9" None).
  - reflexivity.
  - reflexivity.
Defined.

(** The same two requests one after the other: the first is served, the
    second is answered 401. *)
Example sequential_exchange_succeeds_once :
  status (fst (refreshToken env (t0 + 60000) refresh0 "10.0.0.1" None db0)) = 200 /\
  status (fst (refreshToken env (t0 + 61005) refresh0 "10.0.0.9" None
                 (snd (refreshToken env (t0 + 60000) refresh0 "10.0.0.1" None db0)))) = 401.
Proof. split; reflexivity. Qed.

(** A token presented in the very second it was issued: the new refresh
    token is the same string, its record is refused by the unique index
    after the old record has been marked used, and the reply is 500. *)
Example exchange_within_issuing_second :
  exists db', refreshToken env (t0 + 500) refresh0 "10.0.0.1" None db0
              = (Reply 500 "Token refresh failed" None, db') /\
              Forall (fun d => used d = true) (tokens db').
Proof. eexists. split; [reflexivity|]. repeat constructor. Qed.

(** C7, as stated, fails: replaying the spent first token is answered 401
    and the store is exactly what it was; the other refresh token of the
    same user is still unused and is exchanged afterwards. *)
Lemma replay_revokes_nothing :
  exists d0 d1,
    tokens db2 !! 0%nat = Some d0 /\ Some (token d0) = refresh0 /\ used d0 = true /\
    refreshToken env (t0 + 120000) refresh0 "10.0.0.66" None db2
    = (Reply 401 "Refresh token expired or invalid" None, db2) /\
    tokens db2 !! 1%nat = Some d1 /\ t_userId d1 = t_userId d0 /\
    type d1 = refresh /\ used d1 = false /\
    status (fst (refreshToken env (t0 + 180000) (Some (token d1)) "10.0.0.66" None db2))
    = 200.
Proof.
  eexists _, _. split; [reflexivity|]. repeat (split; [reflexivity|]). reflexivity.
Qed.

(** C7, amended. In any store the handlers can produce, an exchange
    attempted with a refresh token whose record is marked used is answered
    401 and changes nothing in the store: no other record is revoked. *)
Theorem replay_rejected_store_untouched env now ip ua db d :
  reachable db ->
  d ∈ tokens db ->
  used d = true ->
  exists msg, refreshToken env now (Some (token d)) ip ua db = (Reply 401 msg None, db).
Proof.
  intros Hreach Hd Hused. apply reachable_invariant in Hreach.
  apply spent_rejected; [exact Hreach|]. by apply used_record_spent.
Qed.

Lemma replay_rejected_store_untouched_witness :
  exists msg,
    refreshToken env (t0 + 120000)
      (Some (Jwt.Signed (Jwt.RefreshPayload 0) 1700000000 1700604800 "refresh-secret"))
      "10.0.0.66" None db2
    = (Reply 401 msg None, db2).
Proof.
  apply (replay_rejected_store_untouched env (t0 + 120000) "10.0.0.66" None db2
           {| t_userId := 0;
              token := Jwt.Signed (Jwt.RefreshPayload 0) 1700000000 1700604800 "refresh-secret";
              type := refresh; expiresAt := 1700604800000; used := true;
              ipAddress := "10.0.0.1"; userAgent := None |}).
  - exact db2_reachable.
  - apply (list_elem_of_lookup_2 _ 0%nat). reflexivity.
  - reflexivity.
Defined.

End ReplayFacts.

(** * Suspended accounts and stored roles *)

Module GateFacts.
Import Models Config AuthController System StoreFacts Scenario.

(** A valid access token of a suspended account is answered 403. *)
Lemma inactive_blocked_at_gate env now t decoded db user :
  Jwt.verify t (JWT_SECRET env) (clock now) = inr decoded ->
  User_findById db (Jwt.userId decoded) = Some user ->
  isActive user = false ->
  Auth.authenticate env now (Some (Auth.Bearer t)) db = Send 403 "Account is deactivated".
Proof. intros Hv Hu Ha. unfold Auth.authenticate. by rewrite Hv, Hu, Ha. Qed.

(** Login refuses a suspended account before looking at the password. *)
Lemma inactive_blocked_at_login env now e pw ip ua db id user :
  User_findOne db e = Some (id, user) ->
  isActive user = false ->
  login env now false e pw ip ua db = (Reply 403 "Account is deactivated" None, db).
Proof. intros Hu Ha. unfold login. by rewrite Hu, Ha. Qed.

(** The refresh exchange never reads [isActive]: suspending an account
    changes no reply of it. *)
Lemma refresh_blind_to_isActive env now rt ip ua id db :
  fst (refreshToken env now rt ip ua (suspend id db))
  = fst (refreshToken env now rt ip ua db).
Proof.
  unfold refreshToken.
  destruct rt as [t|]; [|reflexivity].
  destruct (Jwt.falsy (Some t)); [reflexivity|].
  destruct (Jwt.verify _ _ _) as [?|decoded]; [reflexivity|].
  change (Token_findOne (suspend id db) t now) with (Token_findOne db t now).
  destruct (Token_findOne db t now) as [[i d]|]; [|reflexivity].
  assert (forall u : User, generateTokens env now (Jwt.userId decoded) (deactivate u)
                           = generateTokens env now (Jwt.userId decoded) u) as Hgen
    by reflexivity.
  assert (User_findById (suspend id db) (Jwt.userId decoded)
          = (if decide (id = Jwt.userId decoded) then deactivate else fun u => u)
              <$> User_findById db (Jwt.userId decoded)) as ->.
  { unfold User_findById, suspend. simpl. case_decide as Hid.
    - subst id. apply list_lookup_alter_eq.
    - rewrite list_lookup_alter_ne by exact Hid. by destruct (users db !! _). }
  destruct (User_findById db _) as [u|]; simpl; [|reflexivity].
  assert (generateTokens env now (Jwt.userId decoded)
            ((if decide (id = Jwt.userId decoded) then deactivate else fun u => u) u)
          = generateTokens env now (Jwt.userId decoded) u) as ->
    by (case_decide; [apply Hgen | reflexivity]).
  destruct (generateTokens _ _ _ _) as [[a r]|]; [|reflexivity].
  unfold saveRefreshToken, Token_create. simpl. by case_bool_decide.
Qed.

(** The principal built by the gate carries no module set, the schema
    having no [modules] path; [authorize] then reads it as the empty list. *)
Lemma gate_principal_modules env now authHeader db (p : Authorize.principal) :
  Auth.authenticate env now authHeader db = Next p -> Authorize.modules p = None.
Proof.
  unfold Auth.authenticate.
  destruct authHeader as [[t|raw]|]; try discriminate.
  destruct (Jwt.verify _ _ _) as [[]|decoded]; try discriminate.
  destruct (User_findById _ _) as [u|]; [|discriminate].
  destruct (isActive u); simpl; [|discriminate].
  by intros [= <-].
Qed.

(** C3: the gate refuses the suspended viewer's valid access token, but
    the refresh exchange serves the same account a new token pair. *)
Theorem refresh_serves_suspended_account :
  (isActive <$> User_findById suspended 0) = Some false /\
  Auth.authenticate env (t0 + 60000) (Auth.Bearer <$> access0) suspended
  = Send 403 "Account is deactivated" /\
  exists a r, fst (refreshToken env (t0 + 60000) refresh0 "10.0.0.1" None suspended)
              = Reply 200 "Token refreshed successfully" (Some (a, r)).
Proof.
  split; [reflexivity|]. split; [reflexivity|]. eexists _, _. reflexivity.
Qed.

(** C10. In any store the handlers and the User model can produce, every
    stored role is one of the six values of ROLES, hence neither
    super_admin nor wfp_health_officer; and so is the role of every
    principal the authentication gate attaches to a request. *)
Theorem stored_roles_closed db :
  reachable db ->
  (forall (i : nat) (u : User), users db !! i = Some u ->
     role u ∈ ["admin"; "dube_admin"; "dube_viewer"; "wfp_admin"; "wfp_viewer"; "user"] /\
     role u <> "super_admin" /\ role u <> "wfp_health_officer") /\
  (forall env now authHeader (p : Authorize.principal),
     Auth.authenticate env now authHeader db = Next p ->
     Authorize.role p ∈ ["admin"; "dube_admin"; "dube_viewer"; "wfp_admin"; "wfp_viewer"; "user"] /\
     Authorize.role p <> "super_admin" /\ Authorize.role p <> "wfp_health_officer").
Proof.
  intros Hinv%reachable_invariant.
  assert (forall r : string,
            r ∈ Object_values ROLES ->
            r ∈ ["admin"; "dube_admin"; "dube_viewer"; "wfp_admin"; "wfp_viewer"; "user"] /\
            r <> "super_admin" /\ r <> "wfp_health_officer") as Hclosed.
  { intros r Hr. split; [exact Hr|].
    split; intros ->; apply (bool_decide_eq_true_2 _) in Hr; discriminate. }
  assert (forall i u, users db !! i = Some u -> role u ∈ Object_values ROLES) as Hstored
    by (intros i u Hu; exact (Forall_lookup_1 _ _ _ _ (inv_roles _ Hinv) Hu)).
  split; [by eauto|].
  intros env now authHeader p. unfold Auth.authenticate, User_findById.
  destruct authHeader as [[t|raw]|]; try discriminate.
  destruct (Jwt.verify _ _ _) as [[]|decoded]; try discriminate.
  destruct (users db !! _) as [u|] eqn:Hu; [|discriminate].
  destruct (isActive u); simpl; [|discriminate].
  intros [= <-]. simpl. eauto.
Qed.

Lemma stored_roles_closed_witness :
  "wfp_viewer" ∈ ["admin"; "dube_admin"; "dube_viewer"; "wfp_admin"; "wfp_viewer"; "user"] /\
  "wfp_viewer" <> "super_admin" /\ "wfp_viewer" <> "wfp_health_officer".
Proof.
  exact (proj1 (stored_roles_closed db0 ReplayFacts.db0_reachable) 0%nat
           {| email := "viewer@wfp.org"; password := Bcrypt "Passw0rd!";
              role := "wfp_viewer"; accessibleModules := []; isActive := true |}
           eq_refl).
Defined.

(** Registration with a role outside ROLES stores nothing. *)
Example register_super_admin_refused :
  register env t0 false "root@x.org" "Passw0rd!" (Some "super_admin") "10.0.0.1" None emptyDb
  = (Reply 500 "Registration failed" None, emptyDb).
Proof. reflexivity. Qed.

End GateFacts.

(** * Further properties of the role check *)

Module RankFacts.
Import Authorize AuthorizeFacts.

(** X1. Being listed is not enough: a listed role that another listed
    role outranks is refused by the rank check, which wants the highest
    rank listed.  (The list holds no name inherited from Object.prototype;
    the admin shortcut of module routes is set aside.) *)
Theorem outranked_listed_role_refused allowedRoles module (u : principal)
    (A : string) (a b : Z) :
  rank (role u) = Some b -> rank A = Some a -> b < a ->
  role u ∈ allowedRoles -> A ∈ allowedRoles ->
  (forall r, r ∈ allowedRoles -> r ∉ Js.objectPrototypeKeys) ->
  moduleOk module u = true ->
  Js.truthy module && bool_decide (role u = "admin") = false ->
  authorize allowedRoles module (Some u)
  = Send 403 "Access denied. Higher privileges required.".
Proof.
  intros Hb Ha Hlt Hu HA Hown Hmod Hadmin. rewrite authorize_checks.
  assert (role u <> "super_admin") as Hs.
  { intros Heq. rewrite Heq in Hb. injection Hb as <-. apply rank_le_100 in Ha. lia. }
  rewrite (bool_decide_eq_false_2 _ Hs), Hadmin, Hmod.
  assert (listOk allowedRoles (role u) = true) as -> by (apply listOk_spec; auto).
  simpl. destruct (Math_max_ge allowedRoles A a Hown HA Ha) as (m & -> & Hm).
  rewrite (getProperty_rank _ _ Hb). unfold Js.lt. simpl.
  assert ((b <? m) = true) as -> by (apply Z.ltb_lt; lia). reflexivity.
Qed.

Lemma outranked_listed_role_refused_witness :
  authorize ["wfp_admin"; "wfp_viewer"] (Some "wfp") (Some Scenario.wfpViewer)
  = Send 403 "Access denied. Higher privileges required.".
Proof.
  apply (outranked_listed_role_refused ["wfp_admin"; "wfp_viewer"] (Some "wfp")
           Scenario.wfpViewer "wfp_admin" 80 70).
  - reflexivity.
  - reflexivity.
  - lia.
  - apply (bool_decide_eq_true_1 _). reflexivity.
  - apply (bool_decide_eq_true_1 _). reflexivity.
  - intros r Hr%list_elem_of_In. simpl in Hr.
    destruct Hr as [<-|[<-|[]]]; apply (bool_decide_eq_false_1 _); reflexivity.
  - reflexivity.
  - reflexivity.
Defined.

(** X2. A listed role that the rank table does not know passes the rank
    check whatever else is listed: [undefined] is below nothing. *)
Theorem unranked_listed_role_passes allowedRoles module (u : principal) :
  rank (role u) = None ->
  role u ∈ allowedRoles ->
  moduleOk module u = true ->
  authorize allowedRoles module (Some u) = Next tt.
Proof.
  intros Hrank Hin Hmod. rewrite authorize_checks, Hmod.
  assert (role u <> "super_admin") as Hs by (intros Heq; by rewrite Heq in Hrank).
  rewrite (bool_decide_eq_false_2 _ Hs).
  assert (listOk allowedRoles (role u) = true) as -> by (apply listOk_spec; auto).
  simpl. destruct (Js.truthy module && _); [reflexivity|].
  unfold Js.getProperty. unfold rank in Hrank. rewrite Hrank.
  unfold Js.lt. by case_bool_decide.
Qed.

Lemma unranked_listed_role_passes_witness :
  authorize ["wfp_admin"; "wfp_field_officer"] (Some "wfp") (Some Cases.fieldOfficer)
  = Next tt.
Proof.
  apply unranked_listed_role_passes.
  - reflexivity.
  - apply (bool_decide_eq_true_1 _). reflexivity.
  - reflexivity.
Defined.

End RankFacts.

(** * The permission check *)

Module PermissionFacts.
Import Authorize Permission.

Lemma assoc_None {A : Type} (entries : list (string * A)) key :
  assoc entries key = None <-> key ∉ entries.*1.
Proof.
  induction entries as [|[k v] l IH]; simpl.
  - split; [intros _; apply not_elem_of_nil | reflexivity].
  - case_bool_decide as Hk.
    + subst k. split; [discriminate|]. intros Hn. destruct Hn. left.
    + rewrite IH. rewrite not_elem_of_cons. split; [auto | tauto].
Qed.

Lemma inherited_names : inheritedLength.*1 = Js.objectPrototypeKeys.
Proof. reflexivity. Qed.

Lemma own_roles_nonempty permission roles :
  assoc permissionMap permission = Some roles -> "super_admin" ∈ roles.
Proof.
  unfold permissionMap. simpl.
  repeat (case_bool_decide; [intros [= <-]; apply (bool_decide_eq_true_1 _); reflexivity|]).
  discriminate.
Qed.

(** X3. A permission name that the map does not have (and that no object
    inherits) lets every authenticated user through. *)
Theorem unknown_permission_is_open permission (u : principal) :
  assoc permissionMap permission = None ->
  permission ∉ Js.objectPrototypeKeys ->
  hasPermission permission (Some u) = Next tt.
Proof.
  intros Hown Hinh. unfold hasPermission, lookup. rewrite Hown.
  rewrite <- inherited_names in Hinh. apply assoc_None in Hinh. by rewrite Hinh.
Qed.

Lemma unknown_permission_is_open_witness :
  hasPermission "wfp.voucher.redeem"
    (Some {| userId := 3; email := "u@x.org"; role := "user"; modules := None |})
  = Next tt.
Proof.
  apply unknown_permission_is_open.
  - reflexivity.
  - apply (bool_decide_eq_false_1 _). reflexivity.
Defined.

(** X4. For a permission of the map, a user passes exactly if the role is
    listed for it (super_admin is listed for each); everyone else is
    answered 403 with the name of the permission. *)
Theorem listed_permission_decision permission roles (u : principal) :
  assoc permissionMap permission = Some roles ->
  (hasPermission permission (Some u) = Next tt <-> role u ∈ roles) /\
  (role u ∉ roles ->
   hasPermission permission (Some u) = Send 403 (missingPermission permission)).
Proof.
  intros Hown. pose proof (own_roles_nonempty _ _ Hown) as Hsuper.
  unfold hasPermission, lookup. rewrite Hown.
  assert ((Z.of_nat (List.length roles) =? 0) = false) as ->.
  { apply Z.eqb_neq. destruct roles; [by apply elem_of_nil in Hsuper | simpl; lia]. }
  unfold Js.includes. split.
  - case_bool_decide as Hs; simpl.
    + rewrite Hs. tauto.
    + case_bool_decide; simpl; (split; [first [discriminate | auto] | intros; first [reflexivity | contradiction]]).
  - intros Hnot. rewrite (bool_decide_eq_false_2 _ Hnot).
    rewrite bool_decide_eq_false_2; [reflexivity|]. intros Hs. by rewrite Hs in Hnot.
Qed.

Lemma listed_permission_decision_witness :
  hasPermission "user.manage" (Some Scenario.wfpAdmin)
  = Send 403 "Access denied. Missing permission: user.manage".
Proof.
  refine (proj2 (listed_permission_decision "user.manage" ["admin"; "super_admin"]
                   Scenario.wfpAdmin _) _).
  - reflexivity.
  - apply (bool_decide_eq_false_1 _). reflexivity.
Defined.

(** A name inherited from Object.prototype is not a list of roles: the
    functions of arity zero let everyone through, the others answer 500 to
    everyone but super_admin. *)
Lemma inherited_permission permission len (u : principal) :
  assoc permissionMap permission = None ->
  assoc inheritedLength permission = Some len ->
  hasPermission permission (Some u)
  = if bool_decide (len = Some 0) || bool_decide (role u = "super_admin")
    then Next tt else Send 500 "Permission check failed".
Proof.
  intros Hown Hinh. unfold hasPermission, lookup. rewrite Hown, Hinh.
  by repeat case_bool_decide.
Qed.

End PermissionFacts.

(** * The gate and what follows it *)

Module PipelineFacts.
Import Models Config AuthController System StoreFacts.

(** What the gate has checked when it lets a request through. *)
Lemma gate_admits_inv env now authHeader db (p : Authorize.principal) :
  Auth.authenticate env now authHeader db = Next p ->
  exists t decoded user,
    authHeader = Some (Auth.Bearer t) /\
    Jwt.verify t (JWT_SECRET env) (clock now) = inr decoded /\
    User_findById db (Jwt.userId decoded) = Some user /\
    isActive user = true /\
    p = {| Authorize.userId := Jwt.userId decoded; Authorize.email := email user;
           Authorize.role := role user; Authorize.modules := None |}.
Proof.
  unfold Auth.authenticate.
  destruct authHeader as [[t|raw]|]; try discriminate.
  destruct (Jwt.verify _ _ _) as [[]|decoded] eqn:Hv; try discriminate.
  destruct (User_findById _ _) as [u|] eqn:Hu; [|discriminate].
  destruct (isActive u) eqn:Ha; simpl; [|discriminate].
  intros [= <-]. eauto 10.
Qed.

Lemma gate_role_stored env now authHeader db (p : Authorize.principal) :
  reachable db ->
  Auth.authenticate env now authHeader db = Next p ->
  Authorize.role p ∈ Object_values ROLES /\ Authorize.modules p = None.
Proof.
  intros Hreach Hgate.
  apply gate_admits_inv in Hgate as (t & decoded & user & _ & _ & Hu & _ & ->).
  split; [|reflexivity]. simpl.
  exact (Forall_lookup_1 _ _ _ _ (inv_roles _ (reachable_invariant _ Hreach)) Hu).
Qed.

(** X6. Gate, then role check: for a principal that the gate attaches from
    a reachable store, every route scoped to a module answers 403 with the
    module message, whatever roles it lists; the principal carries no
    module set and is never super_admin. *)
Theorem stored_identity_refused_on_module_routes env now authHeader db
    (p : Authorize.principal) allowedRoles (m : string) :
  reachable db ->
  Auth.authenticate env now authHeader db = Next p ->
  m <> "" ->
  Authorize.authorize allowedRoles (Some m) (Some p)
  = Send 403 (Authorize.moduleDenied m).
Proof.
  intros Hreach Hgate Hm.
  destruct (gate_role_stored _ _ _ _ _ Hreach Hgate) as [Hrole Hmods].
  unfold Authorize.authorize. rewrite Hmods. simpl.
  rewrite bool_decide_eq_false_2.
  - rewrite (bool_decide_eq_false_2 _ Hm). reflexivity.
  - intros Hs. rewrite Hs in Hrole. apply (bool_decide_eq_true_2 _) in Hrole. discriminate.
Qed.

Lemma stored_identity_refused_on_module_routes_witness :
  Authorize.authorize ["wfp_admin"; "wfp_viewer"] (Some "wfp")
    (Some {| Authorize.userId := 0; Authorize.email := "viewer@wfp.org";
             Authorize.role := "wfp_viewer"; Authorize.modules := None |})
  = Send 403 "Access denied. You don't have access to WFP module.".
Proof.
  apply (stored_identity_refused_on_module_routes Scenario.env (Scenario.t0 + 60000)
           (Auth.Bearer <$> Scenario.access0) Scenario.db0).
  - exact ReplayFacts.db0_reachable.
  - reflexivity.
  - discriminate.
Defined.

(** X5. Gate, then permission check: no principal that the gate attaches
    from a reachable store is granted "system.settings". *)
Theorem stored_identity_never_system_settings env now authHeader db
    (p : Authorize.principal) :
  reachable db ->
  Auth.authenticate env now authHeader db = Next p ->
  Permission.hasPermission "system.settings" (Some p)
  = Send 403 "Access denied. Missing permission: system.settings".
Proof.
  intros Hreach Hgate.
  destruct (gate_role_stored _ _ _ _ _ Hreach Hgate) as [Hrole _].
  unfold Permission.hasPermission. simpl. unfold Js.includes.
  assert (Authorize.role p <> "super_admin") as Hs.
  { intros Hs. rewrite Hs in Hrole. apply (bool_decide_eq_true_2 _) in Hrole. discriminate. }
  rewrite (bool_decide_eq_false_2 _ Hs). simpl.
  rewrite bool_decide_eq_false_2; [reflexivity|].
  intros Hin%list_elem_of_In. simpl in Hin. destruct Hin as [Heq|[]]. by symmetry in Heq.
Qed.

Lemma stored_identity_never_system_settings_witness :
  Permission.hasPermission "system.settings"
    (Some {| Authorize.userId := 0; Authorize.email := "viewer@wfp.org";
             Authorize.role := "wfp_viewer"; Authorize.modules := None |})
  = Send 403 "Access denied. Missing permission: system.settings".
Proof.
  apply (stored_identity_never_system_settings Scenario.env (Scenario.t0 + 60000)
           (Auth.Bearer <$> Scenario.access0) Scenario.db0).
  - exact ReplayFacts.db0_reachable.
  - reflexivity.
Defined.

(** X7. The optional gate attaches a principal exactly when the strict
    gate lets the request through, and the same one. *)
Theorem optional_gate_agrees env now authHeader db (p : Authorize.principal) :
  OptionalAuth.optionalAuthenticate env now authHeader db = Some p
  <-> Auth.authenticate env now authHeader db = Next p.
Proof.
  unfold OptionalAuth.optionalAuthenticate, Auth.authenticate.
  destruct authHeader as [[t|raw]|]; try (split; discriminate).
  destruct (Jwt.verify _ _ _) as [[]|decoded]; try (split; discriminate).
  destruct (User_findById _ _) as [u|]; [|split; discriminate].
  destruct (isActive u); simpl; split; try discriminate; by intros [= <-].
Qed.

(** X8. Lifetime of an access token: for a token issued by
    [generateTokens] for user [id], and as long as that user is on record
    and active, the gate lets it through before the expiry second with the
    role and e-mail now on record (not those written in the token), and
    answers 401 "Token expired" from the expiry second on. *)
Theorem access_token_lifetime env now id issued a r db user now' :
  generateTokens env now id issued = Some (a, r) ->
  User_findById db id = Some user ->
  isActive user = true ->
  (clock now' < clock now + default 900 (JWT_ACCESS_EXPIRATION env) ->
   Auth.authenticate env now' (Some (Auth.Bearer a)) db
   = Next {| Authorize.userId := id; Authorize.email := email user;
             Authorize.role := role user; Authorize.modules := None |}) /\
  (clock now + default 900 (JWT_ACCESS_EXPIRATION env) <= clock now' ->
   Auth.authenticate env now' (Some (Auth.Bearer a)) db = Send 401 "Token expired").
Proof.
  intros Hgen Hu Hact.
  apply TokenFacts.generateTokens_inv in Hgen as (ka & kr & Hka & Hne & _ & _ & -> & _).
  unfold Auth.authenticate, Jwt.verify. rewrite Hka.
  rewrite (bool_decide_eq_false_2 _ Hne), (bool_decide_eq_true_2 _ eq_refl). simpl.
  split; intros Hclock.
  - assert ((clock now + default 900 (JWT_ACCESS_EXPIRATION env) <=? clock now') = false)
      as -> by (apply Z.leb_gt; lia).
    simpl. by rewrite Hu, Hact.
  - assert ((clock now + default 900 (JWT_ACCESS_EXPIRATION env) <=? clock now') = true)
      as -> by (apply Z.leb_le; lia).
    reflexivity.
Qed.

Lemma access_token_lifetime_witness :
  Auth.authenticate Scenario.env (Scenario.t0 + 900000)
    (Auth.Bearer <$> Scenario.access0) Scenario.db0 = Send 401 "Token expired".
Proof.
  refine (proj2 (access_token_lifetime Scenario.env Scenario.t0 0%nat Cases.viewer
                   _ _ Scenario.db0 Cases.viewer (Scenario.t0 + 900000) _ _ _) _).
  - reflexivity.
  - reflexivity.
  - reflexivity.
  - vm_compute. discriminate.
Defined.

End PipelineFacts.

(** * Referential integrity of the store *)

Module LedgerFacts.
Import Models Config AuthController System StoreFacts Ledger.

Lemma ownRefresh_mono db db' d :
  (List.length (users db) <= List.length (users db'))%nat ->
  ownRefresh db d -> ownRefresh db' d.
Proof. intros Hle (Ht & Hid & Htok). split; [exact Ht|]. split; [lia | exact Htok]. Qed.

Lemma ownRefresh_markUsed db d : ownRefresh db d -> ownRefresh db (markUsed d).
Proof. intros H. exact H. Qed.

Lemma integrity_save_used db i : integrity db -> integrity (tokenDoc_save_used db i).
Proof.
  intros [Hm Ht]. split; [exact Hm|]. simpl.
  apply Forall_alter.
  - eapply Forall_impl; [exact Ht|]. intros d Hd. exact Hd.
  - intros d _ Hd. exact Hd.
Qed.

Lemma integrity_updateMany id db : integrity db -> integrity (Token_updateMany_used id db).
Proof.
  intros [Hm Ht]. split; [exact Hm|]. simpl.
  apply Forall_fmap. eapply Forall_impl; [exact Ht|].
  intros d Hd. simpl. case_bool_decide; exact Hd.
Qed.

Lemma integrity_users db us :
  integrity db ->
  (List.length (users db) <= List.length us)%nat ->
  Forall (fun u => validModules (accessibleModules u) = true) us ->
  integrity (withUsers db us).
Proof.
  intros [Hm Ht] Hle Hus. split; [exact Hus|]. simpl.
  eapply Forall_impl; [exact Ht|]. intros d Hd.
  eapply ownRefresh_mono; [|exact Hd]. exact Hle.
Qed.

Lemma integrity_issue db db' env now now' id user a r ip ua :
  integrity db ->
  (id < List.length (users db))%nat ->
  generateTokens env now id user = Some (a, r) ->
  saveRefreshToken now' id r ip ua db = Some db' ->
  integrity db'.
Proof.
  intros [Hm Ht] Hid Hgen. unfold saveRefreshToken, Token_create.
  case_bool_decide; [discriminate|]. intros [= <-]. split; [exact Hm|]. simpl.
  apply Forall_app. split.
  - eapply Forall_impl; [exact Ht|]. intros d Hd. exact Hd.
  - constructor; [|constructor]. split; [reflexivity|]. split; [exact Hid|]. simpl.
    apply TokenFacts.generateTokens_inv in Hgen as (? & ? & _ & _ & _ & _ & _ & ->).
    eauto.
Qed.

Lemma validate_modules d u :
  validate d = Some u -> validModules (accessibleModules u) = true.
Proof.
  unfold validate. destruct (validRole _); simpl; [|discriminate].
  destruct (validModules _) eqn:Hm; simpl; [|discriminate].
  destruct (validPassword _); [|discriminate]. by intros [= <-].
Qed.

Lemma integrity_refreshToken env now rt ip ua db :
  integrity db -> integrity (snd (refreshToken env now rt ip ua db)).
Proof.
  intros Hint. unfold refreshToken.
  destruct rt as [t|]; [|exact Hint].
  destruct (Jwt.falsy _); [exact Hint|].
  destruct (Jwt.verify _ _ _) as [?|decoded]; [exact Hint|].
  destruct (Token_findOne _ _ _) as [[i d]|]; [|exact Hint].
  destruct (User_findById _ _) as [u|] eqn:Hu; [|exact Hint].
  destruct (generateTokens _ _ _ _) as [[a r]|] eqn:Hgen; [|exact Hint].
  destruct (saveRefreshToken _ _ _ _ _ _) as [db2|] eqn:Hsave; simpl.
  - eapply integrity_issue; [apply integrity_save_used, Hint | | exact Hgen | exact Hsave].
    simpl. by eapply lookup_lt_Some.
  - by apply integrity_save_used.
Qed.

Lemma integrity_login env now invalid e pw ip ua db :
  integrity db -> integrity (snd (login env now invalid e pw ip ua db)).
Proof.
  intros Hint. unfold login.
  destruct invalid; [exact Hint|].
  destruct (User_findOne db e) as [[id u]|] eqn:Hu; [|exact Hint].
  destruct (negb (isActive u)); [exact Hint|].
  destruct (negb (bcrypt_compare _ _)); [exact Hint|].
  destruct (generateTokens _ _ _ _) as [[a r]|] eqn:Hgen; [|exact Hint].
  destruct (saveRefreshToken _ _ _ _ _ _) as [db1|] eqn:Hsave; simpl; [|exact Hint].
  eapply integrity_issue; [exact Hint | | exact Hgen | exact Hsave].
  apply list_find_Some in Hu as (Hu & _). by eapply lookup_lt_Some.
Qed.

Lemma integrity_register env now invalid e pw r ip ua db :
  integrity db -> integrity (snd (register env now invalid e pw r ip ua db)).
Proof.
  intros Hint. unfold register.
  destruct invalid; [exact Hint|].
  destruct (User_findOne db e); [exact Hint|].
  destruct (validate _) as [u|] eqn:Hv; [|exact Hint].
  assert (integrity (withUsers db (users db ++ [u])%list)) as Hint1.
  { apply integrity_users; [exact Hint | rewrite length_app; lia |].
    apply Forall_app. split; [apply Hint|].
    constructor; [|constructor]. by eapply validate_modules. }
  destruct (generateTokens _ _ _ _) as [[a rt]|] eqn:Hgen; [|exact Hint1].
  destruct (saveRefreshToken _ _ _ _ _ _) as [db2|] eqn:Hsave; simpl; [|exact Hint1].
  eapply integrity_issue; [exact Hint1 | | exact Hgen | exact Hsave].
  simpl. rewrite length_app. simpl. lia.
Qed.

Lemma integrity_logout rt db : integrity db -> integrity (snd (logout rt db)).
Proof.
  intros Hint. unfold logout. destruct (Jwt.falsy rt); [exact Hint|].
  destruct (list_find _ _) as [[i d]|]; simpl; [|exact Hint].
  by apply integrity_save_used.
Qed.

Lemma integrity_changePassword id cur new db :
  integrity db -> integrity (snd (changePassword id cur new db)).
Proof.
  intros Hint. unfold changePassword, User_findById.
  destruct (users db !! id) as [u|] eqn:Hu; [|exact Hint].
  destruct (negb (bcrypt_compare _ _)); [exact Hint|].
  destruct (negb (validPassword new)); simpl; [exact Hint|].
  apply integrity_updateMany, integrity_users; [exact Hint | by rewrite length_insert |].
  apply Forall_insert; [apply Hint|]. simpl.
  exact (Forall_lookup_1 _ _ _ _ (int_modules _ Hint) Hu).
Qed.

Lemma integrity_User_save id d db : integrity db -> integrity (User_save id d db).
Proof.
  intros Hint. unfold User_save.
  destruct (validate d) as [u|] eqn:Hv; [|exact Hint].
  apply validate_modules in Hv.
  destruct id as [i|]; apply integrity_users; try exact Hint.
  - by rewrite length_insert.
  - apply Forall_insert; [apply Hint | exact Hv].
  - rewrite length_app. lia.
  - apply Forall_app. split; [apply Hint|]. constructor; [exact Hv | constructor].
Qed.

Lemma integrity_apply o db : integrity db -> integrity (apply o db).
Proof.
  destruct o; simpl;
    auto using integrity_refreshToken, integrity_login, integrity_register,
      integrity_logout, integrity_changePassword, integrity_User_save.
Qed.

Lemma integrity_of_reachable db : reachable db -> integrity db.
Proof.
  induction 1 as [|db o _ IH]; [|by apply integrity_apply].
  split; simpl; constructor.
Qed.

(** X19. In every reachable store each token record is a refresh record,
    names a user that exists, and holds a refresh token signed for that
    same user; and every stored module list is within dube / wfp. *)
Theorem reachable_integrity db :
  reachable db ->
  Forall (fun d => type d = refresh /\
                   (t_userId d < List.length (users db))%nat /\
                   exists iat exp k,
                     token d = Jwt.Signed (Jwt.RefreshPayload (t_userId d)) iat exp k)
         (tokens db) /\
  Forall (fun u => forall m, m ∈ accessibleModules u -> m = "dube" \/ m = "wfp") (users db).
Proof.
  intros Hreach. destruct (integrity_of_reachable db Hreach) as [Hm Ht].
  split; [exact Ht|].
  eapply Forall_impl; [exact Hm|]. intros u Hu m Hin.
  unfold validModules in Hu. rewrite forallb_forall in Hu.
  apply list_elem_of_In in Hin. specialize (Hu m Hin).
  apply bool_decide_eq_true in Hu. apply list_elem_of_In in Hu. simpl in Hu.
  destruct Hu as [<-|[<-|[]]]; auto.
Qed.

Lemma reachable_integrity_witness :
  Forall (fun d => type d = refresh /\
                   (t_userId d < List.length (users Scenario.db2))%nat /\
                   exists iat exp k,
                     token d = Jwt.Signed (Jwt.RefreshPayload (t_userId d)) iat exp k)
         (tokens Scenario.db2).
Proof. exact (proj1 (reachable_integrity Scenario.db2 ReplayFacts.db2_reachable)). Defined.

End LedgerFacts.

(** * Sessions: login, registration, password change, logout *)

Module SessionFacts.
Import Models Config AuthController System StoreFacts RefreshFacts Ledger LedgerFacts.

(** The token pair depends on the time only through the clock second. *)
Lemma generateTokens_clock env now now' id user :
  clock now' = clock now ->
  generateTokens env now' id user = generateTokens env now id user.
Proof. intros H. unfold generateTokens. by rewrite H. Qed.

(** Whether tokens can be signed depends on the environment only. *)
Lemma generateTokens_again env now id user a r now' id' user' :
  generateTokens env now id user = Some (a, r) ->
  exists a' k,
    generateTokens env now' id' user'
    = Some (a', Jwt.Signed (Jwt.RefreshPayload id') (clock now')
                  (clock now' + default 604800 (JWT_REFRESH_EXPIRATION env)) k).
Proof.
  intros H. apply TokenFacts.generateTokens_inv in H as (ka & kr & Hka & Hna & Hkr & Hnr & _).
  unfold generateTokens, Jwt.sign. rewrite Hka, Hkr.
  rewrite (bool_decide_eq_false_2 _ Hna), (bool_decide_eq_false_2 _ Hnr). eauto.
Qed.

Lemma same_second now now' : clock now' = clock now -> now' < now + 1000.
Proof.
  unfold clock. intros H.
  pose proof (Z.mul_succ_div_gt now' 1000 ltac:(lia)).
  pose proof (Z.mul_div_le now 1000 ltac:(lia)). lia.
Qed.

Lemma login_ok_inv env now invalid e pw ip ua db r db' :
  login env now invalid e pw ip ua db = (r, db') ->
  status r = 200 ->
  exists id user a rt,
    User_findOne db e = Some (id, user) /\
    isActive user = true /\
    bcrypt_compare pw (password user) = true /\
    generateTokens env now id user = Some (a, rt) /\
    r = Reply 200 "Login successful" (Some (a, rt)) /\
    (rt ∉ token <$> tokens db) /\
    db' = withTokens db (tokens db ++ [issuedRecord now id rt ip ua])%list.
Proof.
  unfold login. destruct invalid; [by intros [= <- <-]|].
  destruct (User_findOne db e) as [[id u]|] eqn:Hfind; [|by intros [= <- <-]].
  destruct (isActive u) eqn:Hact; simpl; [|by intros [= <- <-]].
  destruct (bcrypt_compare _ _) eqn:Hpw; simpl; [|by intros [= <- <-]].
  destruct (generateTokens _ _ _ _) as [[a rt]|] eqn:Hgen; [|by intros [= <- <-]].
  unfold saveRefreshToken, Token_create. simpl.
  case_bool_decide as Hnew; [by intros [= <- <-]|].
  intros [= <- <-] _. exists id, u, a, rt. repeat split; done.
Qed.

Lemma register_ok_inv env now invalid e pw r ip ua db rep db' :
  register env now invalid e pw r ip ua db = (rep, db') ->
  status rep = 201 ->
  exists user a rt,
    User_findOne db e = None /\
    validate {| d_email := e; d_password := pw; d_role := Some (default "user" r);
                d_accessibleModules := []; d_isActive := None |} = Some user /\
    generateTokens env now (List.length (users db)) user = Some (a, rt) /\
    rep = Reply 201 "User registered successfully" (Some (a, rt)) /\
    (rt ∉ token <$> tokens db) /\
    db' = withTokens (withUsers db (users db ++ [user])%list)
            (tokens db ++ [issuedRecord now (List.length (users db)) rt ip ua])%list.
Proof.
  unfold register. destruct invalid; [by intros [= <- <-]|].
  destruct (User_findOne db e) eqn:Hfind; [by intros [= <- <-]|].
  destruct (validate _) as [u|] eqn:Hv; [|by intros [= <- <-]].
  destruct (generateTokens _ _ _ _) as [[a rt]|] eqn:Hgen; [|by intros [= <- <-]].
  unfold saveRefreshToken, Token_create. simpl.
  case_bool_decide as Hnew; [by intros [= <- <-]|].
  intros [= <- <-] _. exists u, a, rt. repeat split; done.
Qed.

Lemma changePassword_ok_inv id cur new db r db' :
  changePassword id cur new db = (r, db') ->
  status r = 200 ->
  exists user,
    users db !! id = Some user /\
    bcrypt_compare cur (password user) = true /\
    validPassword new = true /\
    db' = Token_updateMany_used id
            (withUsers db (<[id := setPassword user new]> (users db))).
Proof.
  unfold changePassword, User_findById.
  destruct (users db !! id) as [u|] eqn:Hu; [|by intros [= <- <-]].
  destruct (bcrypt_compare _ _) eqn:Hpw; simpl; [|by intros [= <- <-]].
  destruct (validPassword new) eqn:Hv; simpl; [|by intros [= <- <-]].
  intros [= <- <-] _. eauto.
Qed.

(** Marking the record found for a token spends the token. *)
Lemma marking_spends db i d :
  invariant db -> tokens db !! i = Some d -> spent (token d) (tokenDoc_save_used db i).
Proof.
  intros Hinv Hi. split; simpl.
  - rewrite tokens_alter_markUsed. apply list_elem_of_fmap_2. by eapply list_elem_of_lookup_2.
  - apply Forall_lookup. intros j d' Hj Hd.
    destruct (decide (i = j)) as [<-|Hne].
    + rewrite list_lookup_alter_eq, Hi in Hj. by injection Hj as <-.
    + rewrite list_lookup_alter_ne in Hj by exact Hne.
      destruct Hne. eapply same_token_same_record; eauto using inv_unique.
Qed.



Example viewer_address_is_plain :
  plainAddress "viewer@wfp.org" = true /\ plainAddress "Viewer@WFP.org" = false /\
  plainAddress " viewer@wfp.org" = false.
Proof. repeat split. Qed.

(** X10. A second login of the same user within the same clock second is
    answered 500 and stores nothing: it signs the same refresh token again,
    and the unique index refuses the second record. *)
Theorem second_login_same_second_fails env now now' e pw ip ua ip' ua' db r db1 :
  login env now false e pw ip ua db = (r, db1) ->
  status r = 200 ->
  clock now' = clock now ->
  login env now' false e pw ip' ua' db1 = (Reply 500 "Login failed" None, db1).
Proof.
  intros Hlogin Hok Hclock.
  destruct (login_ok_inv _ _ _ _ _ _ _ _ _ _ Hlogin Hok)
    as (id & user & a & rt & Hfind & Hact & Hpw & Hgen & _ & _ & ->).
  unfold login.
  change (User_findOne (withTokens db _) e) with (User_findOne db e).
  rewrite Hfind, Hact, Hpw. simpl.
  rewrite (generateTokens_clock _ _ _ _ _ Hclock), Hgen.
  unfold saveRefreshToken, Token_create. simpl.
  rewrite bool_decide_eq_true_2; [reflexivity|].
  rewrite fmap_app. apply elem_of_app. right. simpl. left.
Qed.

Lemma second_login_same_second_fails_witness :
  login Scenario.env (Scenario.t0 + 5400) false "viewer@wfp.org" "Passw0rd!"
    "10.0.0.3" None Scenario.db1
  = (Reply 500 "Login failed" None, Scenario.db1).
Proof.
  apply (second_login_same_second_fails Scenario.env (Scenario.t0 + 5000)
           (Scenario.t0 + 5400) "viewer@wfp.org" "Passw0rd!" "10.0.0.2" None "10.0.0.3" None
           Scenario.db0 (fst Scenario.loggedIn) Scenario.db1).
  - reflexivity.
  - reflexivity.
  - reflexivity.
Defined.

Lemma login_data_ok env now invalid e pw ip ua db r db' p :
  login env now invalid e pw ip ua db = (r, db') -> data r = Some p -> status r = 200.
Proof.
  unfold login. destruct invalid; [by intros [= <- <-]|].
  destruct (User_findOne db e) as [[id u]|]; [|by intros [= <- <-]].
  destruct (negb (isActive u)); [by intros [= <- <-]|].
  destruct (negb (bcrypt_compare _ _)); [by intros [= <- <-]|].
  destruct (generateTokens _ _ _ _) as [[a rt]|]; [|by intros [= <- <-]].
  destruct (saveRefreshToken _ _ _ _ _ _); by intros [= <- <-].
Qed.

Lemma login_reachable env now invalid e pw ip ua db r db' :
  reachable db -> login env now invalid e pw ip ua db = (r, db') -> reachable db'.
Proof.
  intros Hreach Hlogin.
  assert (db' = apply (Login env now invalid e pw ip ua) db) as ->
    by (unfold apply; by rewrite Hlogin).
  by constructor.
Qed.

Lemma validate_fields d u :
  validate d = Some u ->
  email u = d_email d /\ password u = Bcrypt (d_password d) /\
  role u = default "user" (d_role d) /\ isActive u = default true (d_isActive d).
Proof.
  unfold validate. destruct (_ && _); [|discriminate]. by intros [= <-].
Qed.


(** The user appended last is the one found by an e-mail nobody had. *)
Lemma findOne_appended db e user :
  User_findOne db e = None -> email user = e ->
  User_findOne (withUsers db (users db ++ [user])%list) e
  = Some (List.length (users db), user).
Proof.
  intros Hnone He. unfold User_findOne in *. simpl.
  apply list_find_Some. split; [|split; [exact He|]].
  - rewrite lookup_app_r by lia. by rewrite Nat.sub_diag.
  - intros j y Hj Hlt. rewrite lookup_app_l in Hj by exact Hlt.
    apply list_find_None in Hnone.
    exact (Forall_lookup_1 _ _ _ _ Hnone Hj).
Qed.

(** X11. A refresh token presented in the clock second in which login
    issued it is answered 500, and the token is spent all the same: the
    new refresh token would be the same string, which the unique index
    refuses after the old record has been marked used. *)
Theorem exchange_in_issuing_second_burns_token env now now' e pw ip ua ip' ua'
    db r db1 a rt :
  reachable db ->
  login env now false e pw ip ua db = (r, db1) ->
  data r = Some (a, rt) ->
  clock now' = clock now ->
  0 < default 604800 (JWT_REFRESH_EXPIRATION env) ->
  exists db2,
    refreshToken env now' (Some rt) ip' ua' db1
    = (Reply 500 "Token refresh failed" None, db2) /\
    spent rt db2.
Proof.
  intros Hreach Hlogin Hdata Hclock Hspan.
  pose proof (login_reachable _ _ _ _ _ _ _ _ _ _ Hreach Hlogin) as Hreach1.
  pose proof (login_data_ok _ _ _ _ _ _ _ _ _ _ _ Hlogin Hdata) as Hok.
  destruct (login_ok_inv _ _ _ _ _ _ _ _ _ _ Hlogin Hok)
    as (id & user & a0 & rt0 & Hfind & Hact & Hpw & Hgen & -> & Hnew & ->).
  simpl in Hdata. injection Hdata as -> ->.
  pose proof Hgen as Hg.
  apply TokenFacts.generateTokens_inv in Hg as (ka & kr & _ & _ & Hkr & Hnr & _ & Hrt).
  apply list_find_Some in Hfind as (Hu & _ & _).
  unfold refreshToken.
  assert (Jwt.falsy (Some rt) = false) as -> by (by rewrite Hrt).
  assert (Jwt.verify rt (JWT_REFRESH_SECRET env) (clock now') = inr (Jwt.RefreshPayload id))
    as ->.
  { rewrite Hrt, Hkr. unfold Jwt.verify.
    rewrite (bool_decide_eq_false_2 _ Hnr), (bool_decide_eq_true_2 _ eq_refl). simpl.
    assert ((clock now + default 604800 (JWT_REFRESH_EXPIRATION env) <=? clock now') = false)
      as -> by (apply Z.leb_gt; lia).
    reflexivity. }
  destruct (Token_findOne _ rt now') as [[i d]|] eqn:Hfound.
  - apply list_find_Some in Hfound as (Hi & (Htok & _) & _). simpl.
    unfold User_findById. simpl. rewrite Hu.
    rewrite (generateTokens_clock _ _ _ _ _ Hclock), Hgen.
    unfold saveRefreshToken, Token_create. simpl.
    rewrite bool_decide_eq_true_2.
    + eexists. split; [reflexivity|].
      pose proof (marking_spends _ i d (reachable_invariant _ Hreach1) Hi) as Hs.
      by rewrite Htok in Hs.
    + rewrite tokens_alter_markUsed, fmap_app. apply elem_of_app. right. simpl. left.
  - apply list_find_None in Hfound. simpl in Hfound.
    apply Forall_app in Hfound as [_ Hlast]. apply Forall_inv in Hlast.
    exfalso. apply Hlast. unfold unusedRefresh, issuedRecord. simpl.
    pose proof (same_second _ _ Hclock).
    split; [reflexivity|]. split; [reflexivity|]. split; [reflexivity|]. lia.
Qed.

Lemma exchange_in_issuing_second_burns_token_witness :
  exists db2,
    refreshToken Scenario.env (Scenario.t0 + 5900) Scenario.refresh1 "10.0.0.2" None
      Scenario.db1
    = (Reply 500 "Token refresh failed" None, db2) /\
    spent (Jwt.Signed (Jwt.RefreshPayload 0) 1700000005 1700604805 "refresh-secret") db2.
Proof.
  apply (exchange_in_issuing_second_burns_token Scenario.env (Scenario.t0 + 5000)
           (Scenario.t0 + 5900) "viewer@wfp.org" "Passw0rd!" "10.0.0.2" None "10.0.0.2" None
           Scenario.db0 (fst Scenario.loggedIn) Scenario.db1
           (Jwt.Signed (Jwt.AccessPayload 0 "viewer@wfp.org" "wfp_viewer" None)
              1700000005 1700000905 "access-secret")).
  - exact ReplayFacts.db0_reachable.
  - reflexivity.
  - reflexivity.
  - reflexivity.
  - reflexivity.
Defined.



(** bcrypt reads 72 bytes: two passwords that part ways later compare
    equal, two that part ways before do not. *)
Example bcrypt_reads_72_bytes :
  let long := "0123456789012345678901234567890123456789012345678901234567890123456789ab" in
  bcrypt_compare (long ++ "X") (Bcrypt (long ++ "Y")) = true /\
  bcrypt_compare "Passw0rd?" (Bcrypt "Passw0rd!") = false /\
  bcrypt_compare "Passw0rd!" (Bcrypt "Passw0rd!") = true.
Proof. repeat split. Qed.

(** X13. Register, then log in: in a reachable store, the user of a
    registration answered 201 logs in with the same e-mail and password at
    any other clock second and gets a new pair, and is answered 401 with
    any password that bcrypt tells from it (one with another key). *)
Theorem registered_user_can_login env now e pw r ip ua db rep db1 now' ip' ua' :
  reachable db ->
  register env now false e pw r ip ua db = (rep, db1) ->
  status rep = 201 ->
  clock now' <> clock now ->
  (exists a rt,
     login env now' false e pw ip' ua' db1
     = (Reply 200 "Login successful" (Some (a, rt)),
        withTokens db1
          (tokens db1 ++ [issuedRecord now' (List.length (users db)) rt ip' ua'])%list)) /\
  (forall pw', bcryptKey pw' <> bcryptKey pw ->
     login env now' false e pw' ip' ua' db1 = (Reply 401 "Invalid credentials" None, db1)).
Proof.
  intros Hreach Hreg Hok Hclock.
  destruct (register_ok_inv _ _ _ _ _ _ _ _ _ _ _ Hreg Hok)
    as (user & a & rt & Hnone & Hv & Hgen & _ & Hnew & ->).
  destruct (validate_fields _ _ Hv) as (He & Hpw & _ & Hact). simpl in He, Hpw, Hact.
  pose proof (findOne_appended db e user Hnone He) as Hfind.
  split.
  - destruct (generateTokens_again _ _ _ _ _ _ now' (List.length (users db)) user Hgen)
      as (a' & k & Hgen').
    exists a'. eexists. unfold login.
    change (User_findOne (withTokens _ _) e)
      with (User_findOne (withUsers db (users db ++ [user])%list) e).
    rewrite Hfind, Hact, Hpw. simpl. rewrite (bool_decide_eq_true_2 _ eq_refl). simpl.
    rewrite Hgen'. unfold saveRefreshToken, Token_create. simpl.
    rewrite bool_decide_eq_false_2; [reflexivity|].
    rewrite fmap_app. intros [Hold|Hlast]%elem_of_app.
    + apply list_elem_of_fmap in Hold as (d & Hd & Hin).
      pose proof (proj1 (Forall_forall _ _)
                    (int_tokens _ (integrity_of_reachable _ Hreach)) d Hin)
        as (_ & Hlt & iat & exp & k' & Htok).
      rewrite Htok in Hd. injection Hd as Heq _ _ _. lia.
    + simpl in Hlast. apply list_elem_of_singleton in Hlast.
      apply TokenFacts.generateTokens_inv in Hgen as (? & ? & _ & _ & _ & _ & _ & Hrt).
      rewrite Hrt in Hlast. injection Hlast as Heq _ _. contradiction.
  - intros pw' Hne. unfold login.
    change (User_findOne (withTokens _ _) e)
      with (User_findOne (withUsers db (users db ++ [user])%list) e).
    rewrite Hfind, Hact, Hpw. simpl. by rewrite (bool_decide_eq_false_2 _ Hne).
Qed.

Lemma registered_user_can_login_witness :
  login Scenario.env (Scenario.t0 + 5000) false "viewer@wfp.org" "Passw0rd?"
    "10.0.0.2" None Scenario.db0
  = (Reply 401 "Invalid credentials" None, Scenario.db0).
Proof.
  refine (proj2 (registered_user_can_login Scenario.env Scenario.t0 "viewer@wfp.org"
                   "Passw0rd!" (Some "wfp_viewer") "10.0.0.1" None emptyDb
                   (fst (Scenario.registered Scenario.env)) Scenario.db0
                   (Scenario.t0 + 5000) "10.0.0.2" None _ _ _ _) "Passw0rd?" _).
  - exact reachable_empty.
  - reflexivity.
  - reflexivity.
  - vm_compute. discriminate.
  - vm_compute. discriminate.
Defined.

Lemma changePassword_reachable id cur new db r db' :
  reachable db -> changePassword id cur new db = (r, db') -> reachable db'.
Proof.
  intros Hreach Hcp.
  assert (db' = apply (ChangePassword id cur new) db) as ->
    by (unfold apply; by rewrite Hcp).
  by constructor.
Qed.

Lemma rejected_forever t db :
  reachable db -> spent t db ->
  forall os env now ip ua,
  exists msg,
    refreshToken env now (Some t) ip ua (applyAll os db)
    = (Reply 401 msg None, applyAll os db).
Proof.
  intros Hreach Hspent os env now ip ua. apply spent_rejected.
  - by apply reachable_invariant, reachable_applyAll.
  - by apply spent_applyAll.
Qed.

(** X14. A password change answered 200 marks every refresh record of
    that user used, and in a reachable store no refresh token that was on
    record for the user is exchanged afterwards. *)
Theorem password_change_revokes_refresh_tokens id cur new db r db1 :
  reachable db ->
  changePassword id cur new db = (r, db1) ->
  status r = 200 ->
  Forall (fun d => t_userId d = id -> used d = true) (tokens db1) /\
  forall d, d ∈ tokens db -> t_userId d = id ->
  forall os env now ip ua,
  exists msg,
    refreshToken env now (Some (token d)) ip ua (applyAll os db1)
    = (Reply 401 msg None, applyAll os db1).
Proof.
  intros Hreach Hcp Hok.
  pose proof (changePassword_reachable _ _ _ _ _ _ Hreach Hcp) as Hreach1.
  destruct (changePassword_ok_inv _ _ _ _ _ _ Hcp Hok) as (user & _ & _ & _ & ->).
  assert (forall d, d ∈ tokens db -> t_userId d = id ->
          used (if bool_decide (t_userId d = id /\ type d = refresh /\ used d = false)
                then markUsed d else d) = true) as Hmarked.
  { intros d Hd Hid. case_bool_decide as Hc; [reflexivity|].
    pose proof (proj1 (Forall_forall _ _)
                  (int_tokens _ (integrity_of_reachable _ Hreach)) d Hd) as (Hty & _).
    destruct (used d); [reflexivity|]. destruct Hc. auto. }
  split.
  - simpl. apply Forall_fmap, Forall_forall. intros d Hd. simpl. intros Hid.
    apply Hmarked; [exact Hd|]. by case_bool_decide.
  - intros d Hd Hid. apply rejected_forever; [exact Hreach1|].
    pose proof (used_record_spent _
                  (if bool_decide (t_userId d = id /\ type d = refresh /\ used d = false)
                   then markUsed d else d)
                  (reachable_invariant _ Hreach1)) as Hs.
    assert (token (if bool_decide (t_userId d = id /\ type d = refresh /\ used d = false)
                   then markUsed d else d) = token d) as Htok by (by case_bool_decide).
    rewrite Htok in Hs. apply Hs.
    + simpl. apply list_elem_of_fmap. exists d. split; [reflexivity | exact Hd].
    + by apply Hmarked.
Qed.

Lemma password_change_revokes_refresh_tokens_witness :
  Forall (fun d => t_userId d = 0%nat -> used d = true)
    (tokens (snd (changePassword 0 "Passw0rd!" "N3wPassw0rd!" Scenario.db1))).
Proof.
  refine (proj1 (password_change_revokes_refresh_tokens 0 "Passw0rd!" "N3wPassw0rd!"
                   Scenario.db1
                   (fst (changePassword 0 "Passw0rd!" "N3wPassw0rd!" Scenario.db1))
                   (snd (changePassword 0 "Passw0rd!" "N3wPassw0rd!" Scenario.db1))
                   _ _ _)).
  - exact ReplayFacts.db1_reachable.
  - reflexivity.
  - reflexivity.
Defined.

(** X15. After a password change answered 200 the old password no longer
    authorises a change (401) unless bcrypt cannot tell it from the new
    one (both have the same key), and the new password does, for any next
    password of [length] six at least. *)
Theorem password_change_round_trip id cur new db r db1 :
  changePassword id cur new db = (r, db1) ->
  status r = 200 ->
  (bcryptKey cur <> bcryptKey new ->
   forall new2, changePassword id cur new2 db1
                = (Reply 401 "Current password is incorrect" None, db1)) /\
  (forall new2, validPassword new2 = true ->
                status (fst (changePassword id new new2 db1)) = 200).
Proof.
  intros Hcp Hok.
  destruct (changePassword_ok_inv _ _ _ _ _ _ Hcp Hok) as (user & Hu & _ & _ & ->).
  assert (User_findById (Token_updateMany_used id
            (withUsers db (<[id := setPassword user new]> (users db)))) id
          = Some (setPassword user new)) as Hfound.
  { unfold User_findById. simpl. apply list_lookup_insert_eq. by eapply lookup_lt_Some. }
  split.
  - intros Hne new2. unfold changePassword. rewrite Hfound. simpl.
    by rewrite (bool_decide_eq_false_2 _ Hne).
  - intros new2 Hvalid. unfold changePassword. rewrite Hfound. simpl.
    by rewrite (bool_decide_eq_true_2 _ eq_refl), Hvalid.
Qed.

Lemma password_change_round_trip_witness :
  changePassword 0 "Passw0rd!" "An0ther!" 
    (snd (changePassword 0 "Passw0rd!" "N3wPassw0rd!" Scenario.db1))
  = (Reply 401 "Current password is incorrect" None,
     snd (changePassword 0 "Passw0rd!" "N3wPassw0rd!" Scenario.db1)).
Proof.
  refine (proj1 (password_change_round_trip 0 "Passw0rd!" "N3wPassw0rd!" Scenario.db1
                   (fst (changePassword 0 "Passw0rd!" "N3wPassw0rd!" Scenario.db1))
                   (snd (changePassword 0 "Passw0rd!" "N3wPassw0rd!" Scenario.db1))
                   _ _) _ "An0ther!").
  - reflexivity.
  - reflexivity.
  - vm_compute. discriminate.
Defined.

(** X16. Logout with a refresh token that is on record spends it: in a
    reachable store no later exchange of that token succeeds.  (Logout asks
    for no proof of who presents the token.) *)
Theorem logout_spends_token db d :
  reachable db ->
  d ∈ tokens db ->
  forall os env now ip ua,
  exists msg,
    refreshToken env now (Some (token d)) ip ua
      (applyAll os (snd (logout (Some (token d)) db)))
    = (Reply 401 msg None, applyAll os (snd (logout (Some (token d)) db))).
Proof.
  intros Hreach Hd.
  assert (reachable (snd (logout (Some (token d)) db))) as Hreach1
    by apply (reachable_apply db (Logout (Some (token d))) Hreach).
  apply rejected_forever; [exact Hreach1|].
  pose proof (reachable_invariant _ Hreach) as Hinv.
  unfold logout.
  rewrite (proj1 (Forall_forall _ _) (inv_signed _ Hinv) d Hd).
  destruct (list_find _ _) as [[i d']|] eqn:Hfind; simpl.
  - apply list_find_Some in Hfind as (Hi & ([= Htok] & _) & _).
    rewrite <- Htok. by apply marking_spends.
  - apply list_find_None in Hfind.
    destruct (proj1 (Forall_forall _ _) Hfind d Hd). split; [reflexivity|].
    apply (proj1 (Forall_forall _ _) (int_tokens _ (integrity_of_reachable _ Hreach)) d Hd).
Qed.

Lemma logout_spends_token_witness :
  exists msg,
    refreshToken Scenario.env (Scenario.t0 + 60000)
      (Some (Jwt.Signed (Jwt.RefreshPayload 0) 1700000000 1700604800 "refresh-secret"))
      "10.0.0.1" None
      (applyAll []
         (snd (logout
                 (Some (Jwt.Signed (Jwt.RefreshPayload 0) 1700000000 1700604800
                          "refresh-secret")) Scenario.db0)))
    = (Reply 401 msg None,
       applyAll []
         (snd (logout
                 (Some (Jwt.Signed (Jwt.RefreshPayload 0) 1700000000 1700604800
                          "refresh-secret")) Scenario.db0))).
Proof.
  apply (logout_spends_token Scenario.db0
           (issuedRecord Scenario.t0 0
              (Jwt.Signed (Jwt.RefreshPayload 0) 1700000000 1700604800 "refresh-secret")
              "10.0.0.1" None)
           ReplayFacts.db0_reachable).
  apply (list_elem_of_lookup_2 _ 0%nat). reflexivity.
Defined.

Lemma saveRefreshToken_users now id rt ip ua db db' :
  saveRefreshToken now id rt ip ua db = Some db' -> users db' = users db.
Proof.
  unfold saveRefreshToken, Token_create. case_bool_decide; [discriminate|].
  by intros [= <-].
Qed.

Lemma refreshToken_users env now rt ip ua db :
  users (snd (refreshToken env now rt ip ua db)) = users db.
Proof.
  unfold refreshToken.
  destruct rt as [t|]; [|reflexivity].
  destruct (Jwt.falsy _); [reflexivity|].
  destruct (Jwt.verify _ _ _); [reflexivity|].
  destruct (Token_findOne _ _ _) as [[i d]|]; [|reflexivity].
  destruct (User_findById _ _); [|reflexivity].
  destruct (generateTokens _ _ _ _) as [[a r]|]; [|reflexivity].
  destruct (saveRefreshToken _ _ _ _ _ _) eqn:Hs; [|reflexivity].
  simpl. by rewrite (saveRefreshToken_users _ _ _ _ _ _ _ Hs).
Qed.

Lemma login_users env now invalid e pw ip ua db :
  users (snd (login env now invalid e pw ip ua db)) = users db.
Proof.
  unfold login. destruct invalid; [reflexivity|].
  destruct (User_findOne db e) as [[id u]|]; [|reflexivity].
  destruct (negb (isActive u)); [reflexivity|].
  destruct (negb (bcrypt_compare _ _)); [reflexivity|].
  destruct (generateTokens _ _ _ _) as [[a r]|]; [|reflexivity].
  destruct (saveRefreshToken _ _ _ _ _ _) eqn:Hs; [|reflexivity].
  simpl. by rewrite (saveRefreshToken_users _ _ _ _ _ _ _ Hs).
Qed.

Lemma logout_users rt db : users (snd (logout rt db)) = users db.
Proof.
  unfold logout. destruct (Jwt.falsy rt); [reflexivity|].
  by destruct (list_find _ _) as [[i d]|].
Qed.

Lemma changePassword_identity id cur new db i :
  identity <$> users (snd (changePassword id cur new db)) !! i = identity <$> users db !! i.
Proof.
  unfold changePassword, User_findById.
  destruct (users db !! id) as [u|] eqn:Hu; [|reflexivity].
  destruct (negb (bcrypt_compare _ _)); [reflexivity|].
  destruct (negb (validPassword new)); [reflexivity|]. simpl.
  destruct (decide (id = i)) as [<-|Hne].
  - rewrite list_lookup_insert_eq by (by eapply lookup_lt_Some). by rewrite Hu.
  - by rewrite list_lookup_insert_ne.
Qed.

Lemma register_identity env now invalid e pw r ip ua db i u :
  users db !! i = Some u ->
  users (snd (register env now invalid e pw r ip ua db)) !! i = Some u.
Proof.
  intros Hu. unfold register. destruct invalid; [exact Hu|].
  destruct (User_findOne db e); [exact Hu|].
  destruct (validate _) as [user|]; [|exact Hu].
  assert ((users db ++ [user])%list !! i = Some u) as Hu' by (by apply lookup_app_l_Some).
  destruct (generateTokens _ _ _ _) as [[a rt]|]; [|exact Hu'].
  destruct (saveRefreshToken _ _ _ _ _ _) eqn:Hs; [|exact Hu'].
  simpl. by rewrite (saveRefreshToken_users _ _ _ _ _ _ _ Hs).
Qed.

Lemma keepsUsers_identity o db i :
  keepsUsers o -> identity <$> users (apply o db) !! i = identity <$> users db !! i.
Proof.
  destruct o; simpl; try contradiction; intros _.
  - by rewrite login_users.
  - by rewrite refreshToken_users.
  - by rewrite logout_users.
  - apply changePassword_identity.
Qed.

(** The gate reads of the store only who is on record under which id, with
    which e-mail, role and active flag. *)
Lemma gate_reads_identities env now authHeader db db' :
  (forall i, identity <$> users db' !! i = identity <$> users db !! i) ->
  Auth.authenticate env now authHeader db' = Auth.authenticate env now authHeader db.
Proof.
  intros Hsame. unfold Auth.authenticate, User_findById.
  destruct authHeader as [[t|raw]|]; try reflexivity.
  destruct (Jwt.verify _ _ _) as [[]|decoded]; try reflexivity.
  specialize (Hsame (Jwt.userId decoded)).
  destruct (users db' !! _) as [u'|], (users db !! _) as [u|]; simpl in Hsame;
    try discriminate; [|reflexivity].
  injection Hsame as He Hr _ Ha. by rewrite He, Hr, Ha.
Qed.

(** X17. Logging in, refreshing, logging out and changing the password
    leave every answer of the gate as it was: none of them invalidates an
    access token before its own expiry. *)
Theorem session_ops_leave_gate_alone o db env now authHeader :
  keepsUsers o ->
  Auth.authenticate env now authHeader (apply o db)
  = Auth.authenticate env now authHeader db.
Proof.
  intros Hk. apply gate_reads_identities. intros i. by apply keepsUsers_identity.
Qed.

Lemma session_ops_leave_gate_alone_witness :
  Auth.authenticate Scenario.env (Scenario.t0 + 60000) (Auth.Bearer <$> Scenario.access0)
    (apply (ChangePassword 0 "Passw0rd!" "N3wPassw0rd!") Scenario.db0)
  = Auth.authenticate Scenario.env (Scenario.t0 + 60000) (Auth.Bearer <$> Scenario.access0)
      Scenario.db0.
Proof. apply session_ops_leave_gate_alone. exact I. Defined.

(** X18. No operation served over HTTP changes the e-mail, role, module
    list or active flag of a user on record, or removes the user. *)
Theorem served_ops_keep_identities o db i u :
  served o ->
  users db !! i = Some u ->
  exists u', users (apply o db) !! i = Some u' /\ identity u' = identity u.
Proof.
  intros Hs Hu. destruct o; simpl in Hs; try contradiction.
  - exists u. split; [by apply register_identity | reflexivity].
  - exists u. simpl. by rewrite login_users.
  - exists u. simpl. by rewrite refreshToken_users.
  - exists u. simpl. by rewrite logout_users.
  - pose proof (changePassword_identity id currentPassword newPassword db i) as Hid.
    simpl. rewrite Hu in Hid.
    destruct (users (snd (changePassword _ _ _ _)) !! i) as [u'|]; [|discriminate].
    simpl in Hid. exists u'. split; [reflexivity | congruence].
Qed.

Lemma served_ops_keep_identities_witness :
  exists u',
    users (apply (ChangePassword 0 "Passw0rd!" "N3wPassw0rd!") Scenario.db0) !! 0%nat
    = Some u' /\
    identity u' = identity Cases.viewer.
Proof.
  apply (served_ops_keep_identities (ChangePassword 0 "Passw0rd!" "N3wPassw0rd!")
           Scenario.db0 0%nat Cases.viewer).
  - exact I.
  - reflexivity.
Defined.

Section Lapsed.
Variables (t : Jwt.token) (deadline : Z) (db : Db).
Hypothesis Hlapsed : lapsed t deadline db.

Lemma lapsed_save_used i : lapsed t deadline (tokenDoc_save_used db i).
Proof.
  destruct Hlapsed as [Hin Hall]. split; simpl.
  - by rewrite tokens_alter_markUsed.
  - apply Forall_alter; [exact Hall | auto].
Qed.

Lemma lapsed_updateMany id : lapsed t deadline (Token_updateMany_used id db).
Proof.
  destruct Hlapsed as [Hin Hall]. split; simpl.
  - by rewrite tokens_updateMany.
  - apply Forall_fmap. eapply Forall_impl; [exact Hall|].
    intros d Hd. simpl. by case_bool_decide.
Qed.

Lemma lapsed_create d db' : Token_create db d = Some db' -> lapsed t deadline db'.
Proof.
  destruct Hlapsed as [Hin Hall]. unfold Token_create.
  case_bool_decide as Hnew; [discriminate|]. intros [= <-]. split; simpl.
  - rewrite fmap_app. apply elem_of_app. by left.
  - apply Forall_app. split; [exact Hall|].
    constructor; [|constructor]. intros <-. contradiction.
Qed.

Lemma lapsed_withUsers us : lapsed t deadline (withUsers db us).
Proof. exact Hlapsed. Qed.

End Lapsed.

#[local] Hint Resolve lapsed_save_used lapsed_updateMany lapsed_withUsers : store.
#[local] Hint Extern 2 (lapsed _ _ _) =>
  match goal with
  | H : saveRefreshToken _ _ _ _ _ _ = Some _ |- _ =>
    unfold saveRefreshToken in H; eapply lapsed_create; [|exact H]
  end : store.

Lemma lapsed_apply t deadline o db : lapsed t deadline db -> lapsed t deadline (apply o db).
Proof.
  intros Hl.
  destruct o; simpl;
    unfold register, login, refreshToken, logout, changePassword, User_save;
    repeat case_match; simpl; eauto 6 with store.
Qed.

Lemma lapsed_applyAll t deadline os db :
  lapsed t deadline db -> lapsed t deadline (applyAll os db).
Proof.
  revert db. induction os as [|o os IH]; intros db Hl; [exact Hl|].
  apply IH. by apply lapsed_apply.
Qed.

Lemma lapsed_rejected env now t deadline ip ua db :
  invariant db -> lapsed t deadline db -> deadline <= now ->
  exists msg, refreshToken env now (Some t) ip ua db = (Reply 401 msg None, db).
Proof.
  intros Hinv [Hin Hall] Hlate. unfold refreshToken.
  assert (Jwt.falsy (Some t) = false) as ->.
  { apply list_elem_of_fmap in Hin as (d & -> & Hd).
    by apply (proj1 (Forall_forall _ _) (inv_signed _ Hinv)). }
  destruct (Jwt.verify _ _ _) as [?|decoded]; [eauto|].
  assert (Token_findOne db t now = None) as ->; [|eauto].
  apply list_find_None. eapply Forall_impl; [exact Hall|].
  intros d Hd (Htok & _ & _ & Hlive). specialize (Hd Htok). lia.
Qed.

(** X20. The record of a refresh token lapses seven days after login
    issued it, whatever JWT_REFRESH_EXPIRATION says: in a reachable store,
    from that moment on no exchange of the token succeeds. *)
Theorem refresh_record_lapses_after_seven_days env now e pw ip ua db r db1 a rt :
  reachable db ->
  login env now false e pw ip ua db = (r, db1) ->
  data r = Some (a, rt) ->
  forall os env' now' ip' ua',
  now + 604800000 <= now' ->
  exists msg,
    refreshToken env' now' (Some rt) ip' ua' (applyAll os db1)
    = (Reply 401 msg None, applyAll os db1).
Proof.
  intros Hreach Hlogin Hdata os env' now' ip' ua' Hlate.
  pose proof (login_reachable _ _ _ _ _ _ _ _ _ _ Hreach Hlogin) as Hreach1.
  pose proof (login_data_ok _ _ _ _ _ _ _ _ _ _ _ Hlogin Hdata) as Hok.
  destruct (login_ok_inv _ _ _ _ _ _ _ _ _ _ Hlogin Hok)
    as (id & user & a0 & rt0 & _ & _ & _ & _ & -> & Hnew & ->).
  simpl in Hdata. injection Hdata as -> ->.
  apply (lapsed_rejected env' now' rt (now + 604800000)).
  - by apply reachable_invariant, reachable_applyAll.
  - apply lapsed_applyAll. split; simpl.
    + rewrite fmap_app. apply elem_of_app. right. left.
    + apply Forall_app. split.
      * apply Forall_forall. intros d Hd Htok. destruct Hnew. rewrite <- Htok.
        by apply list_elem_of_fmap_2.
      * constructor; [|constructor]. intros _. simpl. lia.
  - exact Hlate.
Qed.

Lemma refresh_record_lapses_after_seven_days_witness :
  exists msg,
    refreshToken Cases.longEnv (Scenario.t0 + 5000 + 691200000)
      (Some (Jwt.Signed (Jwt.RefreshPayload 0) 1700000005 1702592005 "refresh-secret"))
      "10.0.0.2" None
      (applyAll []
         (snd (login Cases.longEnv (Scenario.t0 + 5000) false "viewer@wfp.org" "Passw0rd!"
                 "10.0.0.2" None Scenario.db0)))
    = (Reply 401 msg None,
       applyAll []
         (snd (login Cases.longEnv (Scenario.t0 + 5000) false "viewer@wfp.org" "Passw0rd!"
                 "10.0.0.2" None Scenario.db0))).
Proof.
  refine (refresh_record_lapses_after_seven_days Cases.longEnv (Scenario.t0 + 5000)
            "viewer@wfp.org" "Passw0rd!" "10.0.0.2" None Scenario.db0
            (fst (login Cases.longEnv (Scenario.t0 + 5000) false "viewer@wfp.org"
                    "Passw0rd!" "10.0.0.2" None Scenario.db0))
            (snd (login Cases.longEnv (Scenario.t0 + 5000) false "viewer@wfp.org"
                    "Passw0rd!" "10.0.0.2" None Scenario.db0))
            (Jwt.Signed (Jwt.AccessPayload 0 "viewer@wfp.org" "wfp_viewer" None)
               1700000005 1700000905 "access-secret")
            _ ReplayFacts.db0_reachable _ _ [] Cases.longEnv
            (Scenario.t0 + 5000 + 691200000) "10.0.0.2" None _).
  - reflexivity.
  - reflexivity.
  - vm_compute. discriminate.
Defined.

(** X21. A reply in the 4xx range leaves the store exactly as it was, for
    registration, login, refresh and password change alike. *)
Theorem client_errors_change_nothing :
  (forall env now invalid e pw r ip ua db rep db',
     register env now invalid e pw r ip ua db = (rep, db') ->
     400 <= status rep < 500 -> db' = db) /\
  (forall env now invalid e pw ip ua db rep db',
     login env now invalid e pw ip ua db = (rep, db') ->
     400 <= status rep < 500 -> db' = db) /\
  (forall env now rt ip ua db rep db',
     refreshToken env now rt ip ua db = (rep, db') ->
     400 <= status rep < 500 -> db' = db) /\
  (forall id cur new db rep db',
     changePassword id cur new db = (rep, db') ->
     400 <= status rep < 500 -> db' = db).
Proof.
  repeat split.
  - intros env now invalid e pw r ip ua db rep db'. unfold register.
    repeat case_match; intros [= <- <-]; simpl; intros; first [reflexivity | lia].
  - intros env now invalid e pw ip ua db rep db'. unfold login.
    repeat case_match; intros [= <- <-]; simpl; intros; first [reflexivity | lia].
  - intros env now rt ip ua db rep db'. unfold refreshToken.
    repeat case_match; intros [= <- <-]; simpl; intros; first [reflexivity | lia].
  - intros id cur new db rep db'. unfold changePassword.
    repeat case_match; intros [= <- <-]; simpl; intros; first [reflexivity | lia].
Qed.

Lemma client_errors_change_nothing_witness :
  snd (login Scenario.env (Scenario.t0 + 5000) false "viewer@wfp.org" "wrong-password"
         "10.0.0.2" None Scenario.db0) = Scenario.db0.
Proof.
  refine (proj1 (proj2 client_errors_change_nothing)
            Scenario.env (Scenario.t0 + 5000) false "viewer@wfp.org" "wrong-password"
            "10.0.0.2" None Scenario.db0
            (fst (login Scenario.env (Scenario.t0 + 5000) false "viewer@wfp.org"
                    "wrong-password" "10.0.0.2" None Scenario.db0))
            _ _ _).
  - reflexivity.
  - split; [vm_compute; discriminate | reflexivity].
Defined.

(** X22. The refresh exchange answers 200 only for a token that verifies
    under the refresh secret and has an unused, unlapsed refresh record;
    in a reachable store the record belongs to the user named in the
    token, that user is on record, and the exchange marks the record used
    and adds one unused record of the new refresh token for the same user,
    leaving the users alone. *)
Theorem refresh_success_sound env now rt ip ua db r db' :
  reachable db ->
  refreshToken env now rt ip ua db = (r, db') ->
  status r = 200 ->
  exists t decoded i d user a r',
    rt = Some t /\
    Jwt.verify t (JWT_REFRESH_SECRET env) (clock now) = inr decoded /\
    tokens db !! i = Some d /\ token d = t /\ type d = refresh /\ used d = false /\
    now < expiresAt d /\
    t_userId d = Jwt.userId decoded /\
    users db !! t_userId d = Some user /\
    data r = Some (a, r') /\
    users db' = users db /\
    tokens db' = (alter markUsed i (tokens db)
                  ++ [issuedRecord now (t_userId d) r' ip ua])%list.
Proof.
  intros Hreach. unfold refreshToken.
  destruct rt as [t|]; [|by intros [= <- <-]].
  destruct (Jwt.falsy (Some t)); [by intros [= <- <-]|].
  destruct (Jwt.verify _ _ _) as [?|decoded] eqn:Hv; [by intros [= <- <-]|].
  destruct (Token_findOne db t now) as [[i d]|] eqn:Hfind; [|by intros [= <- <-]].
  destruct (User_findById _ _) as [user|] eqn:Hu; [|by intros [= <- <-]].
  destruct (generateTokens _ _ _ _) as [[a r']|]; [|by intros [= <- <-]].
  unfold saveRefreshToken, Token_create. simpl.
  case_bool_decide; [by intros [= <- <-]|].
  intros [= <- <-] _.
  apply list_find_Some in Hfind as (Hi & (Htok & Hty & Hunused & Hlive) & _).
  assert (t_userId d = Jwt.userId decoded) as Hown.
  { pose proof (Forall_lookup_1 _ _ _ _ (int_tokens _ (integrity_of_reachable _ Hreach)) Hi)
      as (_ & _ & iat & exp & k & Hsigned).
    rewrite <- Htok, Hsigned in Hv. unfold Jwt.verify in Hv.
    destruct (JWT_REFRESH_SECRET env) as [k'|]; [|discriminate].
    destruct (bool_decide (k' = "")); [discriminate|].
    destruct (negb (bool_decide (k = k'))); [discriminate|].
    destruct (exp <=? clock now); [discriminate|]. by injection Hv as <-. }
  exists t, decoded, i, d, user, a, r'. rewrite Hown.
  repeat split; done.
Qed.

Lemma refresh_success_sound_witness :
  exists t decoded i d user a r',
    Scenario.refresh0 = Some t /\
    Jwt.verify t (JWT_REFRESH_SECRET Scenario.env) (clock (Scenario.t0 + 60000)) = inr decoded /\
    tokens Scenario.db1 !! i = Some d /\ token d = t /\ type d = refresh /\ used d = false /\
    Scenario.t0 + 60000 < expiresAt d /\
    t_userId d = Jwt.userId decoded /\
    users Scenario.db1 !! t_userId d = Some user /\
    data (fst Scenario.exchanged) = Some (a, r') /\
    users Scenario.db2 = users Scenario.db1 /\
    tokens Scenario.db2
    = (alter markUsed i (tokens Scenario.db1)
       ++ [issuedRecord (Scenario.t0 + 60000) (t_userId d) r' "10.0.0.1" None])%list.
Proof.
  apply (refresh_success_sound Scenario.env (Scenario.t0 + 60000) Scenario.refresh0
           "10.0.0.1" None Scenario.db1 (fst Scenario.exchanged) Scenario.db2).
  - exact ReplayFacts.db1_reachable.
  - reflexivity.
  - reflexivity.
Defined.

End SessionFacts.


(** * config/jwt.js *)

Module ConfigFacts.
Import Config.

Lemma orElse_default x (d : string) : d <> "" -> default "" (orElse x (Some d)) <> "".
Proof.
  intros Hd. unfold orElse, Js.truthy. destruct x as [s|]; simpl; [|exact Hd].
  case_bool_decide; simpl; [exact Hd | assumption].
Qed.

(** X23. The effective secrets are never empty, and [validateConfig]
    throws exactly when NODE_ENV is "production" and one of them contains
    "change-this"; in particular it accepts one and the same value for
    both. *)
Theorem validateConfig_throws_iff env :
  ACCESS_SECRET env <> "" /\ REFRESH_SECRET env <> "" /\
  ((exists errors, validateConfig env = Throws errors) <->
   NODE_ENV env = Some "production" /\
   (stringIncludes (ACCESS_SECRET env) "change-this" = true \/
    stringIncludes (REFRESH_SECRET env) "change-this" = true)).
Proof.
  assert (ACCESS_SECRET env <> "") as Ha by (apply orElse_default; discriminate).
  assert (REFRESH_SECRET env <> "") as Hr by (apply orElse_default; discriminate).
  split; [exact Ha|]. split; [exact Hr|].
  unfold validateConfig.
  rewrite (bool_decide_eq_false_2 _ Ha), (bool_decide_eq_false_2 _ Hr). simpl.
  destruct (stringIncludes (ACCESS_SECRET env) _), (stringIncludes (REFRESH_SECRET env) _);
    simpl; case_bool_decide as Hp; simpl; split;
    try (intros [errors [=]]); try (intros [? [?|?]]; discriminate || contradiction);
    eauto.
Qed.

End ConfigFacts.

(** * The WFP role and region guards, and the module method *)

Module GuardFacts.
Import WfpGuards.

(** X24. [requireWfpRole] lets a user through exactly if the role is admin,
    or starts with "wfp_" and is listed; a role that does not start with
    "wfp_" is refused even when the route lists it. *)
Theorem requireWfpRole_decision allowedRoles (r : string) :
  (requireWfpRole allowedRoles (Some r) = Next tt
   <-> r = "admin" \/ (Config.isPrefix "wfp_" r = true /\ r ∈ allowedRoles)) /\
  (r <> "admin" -> Config.isPrefix "wfp_" r = false ->
   requireWfpRole allowedRoles (Some r)
   = Send 403 "WFP role required to access this resource").
Proof.
  unfold requireWfpRole, Js.includes. split.
  - case_bool_decide as Ha; [tauto|].
    destruct (Config.isPrefix "wfp_" r); simpl.
    + case_bool_decide; simpl; split; try tauto; try discriminate.
    + split; [discriminate|]. intros [?|[? _]]; [contradiction | discriminate].
  - intros Ha Hp. by rewrite (bool_decide_eq_false_2 _ Ha), Hp.
Qed.

Lemma requireWfpRole_decision_witness :
  requireWfpRole ["wfp_admin"; "dube_admin"] (Some "dube_admin")
  = Send 403 "WFP role required to access this resource".
Proof.
  refine (proj2 (requireWfpRole_decision ["wfp_admin"; "dube_admin"] "dube_admin") _ _).
  - discriminate.
  - reflexivity.
Defined.

(** Of the roles a stored user can have, only three can pass. *)
Lemma requireWfpRole_stored_roles allowedRoles (r : string) :
  r ∈ Models.Object_values Models.ROLES ->
  requireWfpRole allowedRoles (Some r) = Next tt ->
  r ∈ ["admin"; "wfp_admin"; "wfp_viewer"].
Proof.
  intros Hr%list_elem_of_In Hpass. apply list_elem_of_In. simpl in *.
  destruct Hr as [<-|[<-|[<-|[<-|[<-|[<-|[]]]]]]]; auto; discriminate.
Qed.

Section Region.
Variable toLowerCase : string -> string.

(** X25. A user with no assigned regions (none at all, or an empty list)
    passes the region guard for every request: no assignment means no
    restriction. *)
Theorem unassigned_user_views_every_region (u : user) (query body : gmap string string) :
  assignedRegions u = None \/ assignedRegions u = Some [] ->
  canViewRegion toLowerCase (Some u) query body = Next tt.
Proof.
  intros Hnone. unfold canViewRegion.
  destruct (_ || _); [reflexivity|].
  destruct Hnone as [-> | ->]; [reflexivity|]. simpl. by rewrite andb_false_r.
Qed.


End Region.

Lemma unassigned_user_views_every_region_witness :
  canViewRegion Cases.lower
    (Some {| role := "wfp_health_officer"; assignedRegions := Some [] |})
    {[ "region" := "Afar" ]} ∅ = Next tt.
Proof. apply unassigned_user_views_every_region. right. reflexivity. Defined.


(** The query string wins over the body. *)
Example query_before_body :
  canViewRegion Cases.lower
    (Some {| role := "wfp_health_officer"; assignedRegions := Some ["afar"] |})
    {[ "region" := "Tigray" ]} {[ "region" := "Afar" ]}
  = Send 403 "You are not authorized to view data from this region".
Proof. reflexivity. Qed.

(** X27. [canAccessModule]: an admin can access a module of any name; in
    a reachable store every other user can access dube and wfp at most. *)
Theorem stored_user_module_access db (i : nat) (u : Models.User) (m : string) :
  System.reachable db ->
  Models.users db !! i = Some u ->
  (Models.role u = "admin" -> UserMethods.canAccessModule u m = true) /\
  (UserMethods.canAccessModule u m = true ->
   Models.role u = "admin" \/ m = "dube" \/ m = "wfp").
Proof.
  intros Hreach Hu. unfold UserMethods.canAccessModule.
  change UserMethods.ROLES_ADMIN with "admin". split.
  - intros ->. reflexivity.
  - case_bool_decide as Ha; [auto|]. intros Hin. right.
    pose proof (Forall_lookup_1 _ _ _ _
                  (Ledger.int_modules _ (LedgerFacts.integrity_of_reachable _ Hreach)) Hu)
      as Hvalid.
    unfold Models.validModules in Hvalid. rewrite forallb_forall in Hvalid.
    apply bool_decide_eq_true in Hin. apply list_elem_of_In in Hin.
    specialize (Hvalid m Hin). apply bool_decide_eq_true in Hvalid.
    apply list_elem_of_In in Hvalid. simpl in Hvalid.
    destruct Hvalid as [<-|[<-|[]]]; auto.
Qed.

Lemma stored_user_module_access_witness :
  Models.role Cases.wfpManager = "admin" \/ "wfp" = "dube" \/ "wfp" = "wfp".
Proof.
  refine (proj2 (stored_user_module_access Cases.provisioned 0%nat Cases.wfpManager "wfp"
                   _ _) _).
  - exact (System.reachable_apply Models.emptyDb
             (System.SaveUser None Cases.wfpManagerDraft) System.reachable_empty).
  - reflexivity.
  - reflexivity.
Defined.

End GuardFacts.

(** * The routes *)

Module RouteFacts.
Import Authorize AuthorizeFacts RankFacts Routes.

Lemma ranked_not_inherited r b : rank r = Some b -> r ∉ Js.objectPrototypeKeys.
Proof.
  unfold rank, roleHierarchy. simpl.
  repeat (case_bool_decide; [intros _; subst r; apply (bool_decide_eq_false_1 _); reflexivity|]).
  discriminate.
Qed.

Lemma adminTopped_decision (r : route) (u : principal) :
  adminTopped r ->
  guard r u = Next tt
  <-> role u = "super_admin" \/
      (module r ∈ default [] (modules u) /\ role u = (module r ++ "_admin")%string).
Proof.
  intros (Hm & Hadmin & Hall). unfold guard. rewrite authorize_checks.
  assert (rank (module r ++ "_admin")%string = Some 80) as Hrank80
    by (destruct Hm as [-> | ->]; reflexivity).
  assert (module r <> "") as Hne by (destruct Hm as [-> | ->]; discriminate).
  assert (forall x, x ∈ allowedRoles r -> x <> "super_admin" /\ x <> "admin") as Hglobal.
  { intros x Hx. destruct (proj1 (Forall_forall _ _) Hall x Hx) as [-> | (b & Hb & Hlt)].
    - destruct Hm as [-> | ->]; split; discriminate.
    - split; intros ->; injection Hb as <-; lia. }
  assert (moduleOk (Some (module r)) u = bool_decide (module r ∈ default [] (modules u)))
    as ->.
  { unfold moduleOk, Js.includes. simpl. rewrite (bool_decide_eq_false_2 _ Hne). simpl.
    by rewrite negb_involutive. }
  case_bool_decide as Hs; [split; auto|].
  case_bool_decide as Hmod; simpl;
    [|split; [discriminate | intros [?|[? _]]; contradiction]].
  destruct (listOk (allowedRoles r) (role u)) eqn:Hl; simpl.
  - apply listOk_spec in Hl as [Hl | Hl];
      [rewrite Hl in Hadmin; by apply elem_of_nil in Hadmin|].
    destruct (Hglobal _ Hl) as [_ Hna].
    rewrite (bool_decide_eq_false_2 _ Hna), andb_false_r.
    destruct (proj1 (Forall_forall _ _) Hall _ Hl) as [Heq | (b & Hb & Hlt)].
    + rewrite Heq at 1. rewrite (getProperty_rank _ _ Hrank80).
      assert (Forall (fun x => x <> "super_admin" /\ x <> "admin") (allowedRoles r)) as Hg
        by (apply Forall_forall; exact Hglobal).
      apply Math_max_bound in Hg. unfold Js.lt.
      destruct (Js.Math_max _) as [|n|]; simpl; try (split; auto).
      assert ((80 <? n) = false) as -> by (apply Z.ltb_ge; lia). split; auto.
    + destruct (Math_max_ge (allowedRoles r) (module r ++ "_admin")%string 80)
        as (n & -> & Hn);
        [|exact Hadmin|exact Hrank80|].
      { intros x Hx. destruct (proj1 (Forall_forall _ _) Hall x Hx) as [-> | (b' & Hb' & _)];
          eauto using ranked_not_inherited. }
      rewrite (getProperty_rank _ _ Hb). unfold Js.lt. simpl.
      assert ((b <? n) = true) as -> by (apply Z.ltb_lt; lia).
      split; [discriminate|]. intros [?|[_ Heq]]; [contradiction|].
      rewrite Heq, Hrank80 in Hb. injection Hb as <-. lia.
  - split; [discriminate|]. intros [?|[_ Heq]]; [contradiction|].
    assert (listOk (allowedRoles r) (role u) = true)
      by (apply listOk_spec; right; by rewrite Heq).
    congruence.
Qed.

#[local] Ltac role_ok :=
  first [ left; reflexivity | right; eexists; split; [reflexivity | lia] ].
#[local] Ltac route_ok :=
  split; [first [left; reflexivity | right; reflexivity]|];
  split; [apply (bool_decide_eq_true_1 _); reflexivity|];
  repeat (apply Forall_cons_2; [role_ok|]); apply Forall_nil_2.

Lemma routes_adminTopped : Forall adminTopped (wfpRoutes ++ dubeRoutes).
Proof.
  unfold wfpRoutes, dubeRoutes. simpl app.
  repeat (apply Forall_cons_2; [route_ok|]). apply Forall_nil_2.
Qed.

(** X28. On every route of the WFP and DUBE routers the role check lets a
    principal through exactly if it is super_admin, or holds the module
    and is the admin of that module: the viewers, health officers and
    field agents that the routes list are refused, and so is the global
    admin, whom no route lists. *)
Theorem routes_admit_module_admin_only :
  Forall (fun r => forall u : principal,
            guard r u = Next tt
            <-> role u = "super_admin" \/
                (module r ∈ default [] (modules u) /\
                 role u = (module r ++ "_admin")%string))
         (wfpRoutes ++ dubeRoutes).
Proof.
  eapply Forall_impl; [exact routes_adminTopped|].
  intros r Hr u. by apply adminTopped_decision.
Qed.

(** A viewer who holds the module is refused where the route lists it. *)
Example viewer_refused_on_getcategories :
  guard (Route "/getcategories.php" ["wfp_admin"; "wfp_viewer"] "wfp") Scenario.wfpViewer
  = Send 403 "Access denied. Higher privileges required.".
Proof. reflexivity. Qed.

End RouteFacts.
